(** * ODE step-size demo: the numerical core of [streamlit_ode_demo.py]

    The development embeds the two Euler integrators
    ([generate_explicit_euler], [generate_implicit_euler]) and the accuracy
    and stability analysis of [main] and proves the properties the
    specification states about them.

    Arithmetic model.  Python and NumPy floats are idealised as exact
    rationals ([Q]) extended with the IEEE special values the program
    produces or tests for: the two infinities and NaN (the "undefined"
    marker).  There is no rounding, no overflow and no signed zero in the
    model.  Operations that raise in Python (float division by zero, an
    index out of range, a negative sample count) return [Raise]; a quotient
    [t_max / h] that overflows, on which [int] would raise, is outside the
    model.  The sample count is stated as the code computes it,
    [int(t_max / h) + 1] on the quotient [py_div] returns, and an update as
    the expression the code evaluates. *)

From Stdlib Require Import ZArith QArith Qabs Qround Qpower Qfield Lia Lqa Bool.
From stdpp Require Import base list.

Local Open Scope Q_scope.

(** ** Exceptions *)

Inductive exn : Type :=
  | ZeroDivisionError
  | ValueError
  | IndexError.

Inductive result (A : Type) : Type :=
  | Ok (a : A)
  | Raise (e : exn).

Arguments Ok {A} a.
Arguments Raise {A} e.

Definition rbind {A B : Type} (m : result A) (f : A -> result B) : result B :=
  match m with
  | Ok a => f a
  | Raise e => Raise e
  end.

Notation "'let*' x := m 'in' f" := (rbind m (fun x => f))
  (at level 10, x name, m at level 100, f at level 200).

(** ** Floating-point values: exact rationals plus the IEEE specials *)

Inductive np_float : Type :=
  | Fin (q : Q)
  | PInf
  | NInf
  | NaN.

Definition Qlt_bool (a b : Q) : bool := negb (Qle_bool b a).

Definition isnan (x : np_float) : bool :=
  match x with NaN => true | _ => false end.

Definition fneg (x : np_float) : np_float :=
  match x with
  | Fin a => Fin (- a)
  | PInf => NInf
  | NInf => PInf
  | NaN => NaN
  end.

Definition fadd (x y : np_float) : np_float :=
  match x, y with
  | NaN, _ | _, NaN => NaN
  | Fin a, Fin b => Fin (a + b)
  | PInf, NInf | NInf, PInf => NaN
  | PInf, _ | _, PInf => PInf
  | NInf, _ | _, NInf => NInf
  end.

Definition fsub (x y : np_float) : np_float := fadd x (fneg y).

(** The infinity of the sign of [a], NaN for [a = 0] (inf * 0). *)
Definition inf_of_sign (a : Q) (pos : bool) : np_float :=
  match a ?= 0 with
  | Eq => NaN
  | Gt => if pos then PInf else NInf
  | Lt => if pos then NInf else PInf
  end.

Definition fmul (x y : np_float) : np_float :=
  match x, y with
  | NaN, _ | _, NaN => NaN
  | Fin a, Fin b => Fin (a * b)
  | Fin a, PInf | PInf, Fin a => inf_of_sign a true
  | Fin a, NInf | NInf, Fin a => inf_of_sign a false
  | PInf, PInf | NInf, NInf => PInf
  | PInf, NInf | NInf, PInf => NInf
  end.

(** NumPy division: a zero divisor gives an infinity or NaN (with a
    warning), never an exception. *)
Definition fdiv (x y : np_float) : np_float :=
  match x, y with
  | NaN, _ | _, NaN => NaN
  | Fin a, Fin b =>
      if Qeq_bool b 0 then inf_of_sign a true else Fin (a / b)
  | Fin _, PInf | Fin _, NInf => Fin 0
  | PInf, Fin b => if Qlt_bool b 0 then NInf else PInf
  | NInf, Fin b => if Qlt_bool b 0 then PInf else NInf
  | PInf, PInf | PInf, NInf | NInf, PInf | NInf, NInf => NaN
  end.

Definition fabs (x : np_float) : np_float :=
  match x with
  | Fin a => Fin (Qabs a)
  | PInf | NInf => PInf
  | NaN => NaN
  end.

(** [x < y]; every comparison with NaN is false. *)
Definition flt (x y : np_float) : bool :=
  match x, y with
  | NaN, _ | _, NaN => false
  | Fin a, Fin b => Qlt_bool a b
  | NInf, NInf | PInf, _ => false
  | NInf, _ | _, PInf => true
  | Fin _, NInf => false
  end.

Definition fgt (x y : np_float) : bool := flt y x.

Definition fle (x y : np_float) : bool :=
  match x, y with
  | NaN, _ | _, NaN => false
  | Fin a, Fin b => Qle_bool a b
  | NInf, _ | _, PInf => true
  | PInf, _ | _, NInf => false
  end.

(** ** Python and NumPy primitives *)

(** Python's [a / b] on floats. *)
Definition py_div (a b : Q) : result Q :=
  if Qeq_bool b 0 then Raise ZeroDivisionError else Ok (a / b).

(** Python's [int(x)]: truncation toward zero. *)
Definition py_int (x : Q) : Z := Z.quot (Qnum x) (Zpos (Qden x)).

(** [range(n)]. *)
Definition range (n : Z) : list nat := seq 0 (Z.to_nat n).

(** [np.zeros(n)]. *)
Definition zeros (n : Z) : result (list np_float) :=
  if (n <? 0)%Z then Raise ValueError
  else Ok (replicate (Z.to_nat n) (Fin 0)).

(** [np.linspace(start, stop, num)] with the default [endpoint=True]:
    [arange(num) * step + start] with [step = (stop - start) / (num - 1)],
    the last sample overwritten by [stop] when [num > 1]; a single sample
    is [start]; a negative [num] is refused. *)
Definition linspace (start stop : Q) (num : Z) : result (list Q) :=
  if (num <? 0)%Z then Raise ValueError
  else
    let div := (num - 1)%Z in
    let delta := stop - start in
    let y := (fun i : nat => inject_Z (Z.of_nat i)) <$> range num in
    if (0 <? div)%Z then
      let step := delta / inject_Z div in
      let y := (fun v => v * step + start) <$> y in
      Ok (<[Z.to_nat div := stop]> y)
    else
      Ok ((fun v => v * delta + start) <$> y).

(** [a[i]] and [a[i] = v] for a non-negative index. *)
Definition getitem {A : Type} (a : list A) (i : nat) : result A :=
  match a !! i with
  | Some x => Ok x
  | None => Raise IndexError
  end.

Definition setitem {A : Type} (a : list A) (i : nat) (v : A)
  : result (list A) :=
  if decide (i < length a)%nat then Ok (<[i := v]> a) else Raise IndexError.

(** [a[i:] = v]. *)
Definition setslice_from {A : Type} (a : list A) (i : nat) (v : A) : list A :=
  take i a ++ replicate (length a - i) v.

(** ** The integrators *)

(** The body of the [for] loop of [generate_explicit_euler], over the
    remaining indices of [range(n_steps - 1)]; the array [C] is threaded
    through and [break] ends the iteration. *)
Fixpoint explicit_loop (h k : Q) (idx : list nat) (C : list np_float)
  : result (list np_float) :=
  match idx with
  | [] => Ok C
  | i :: rest =>
      let* ci := getitem C i in
      let* C := setitem C (i + 1)
                  (fadd ci (fmul (Fin h) (fmul (Fin (- k)) ci))) in
      let* ci1 := getitem C (i + 1) in
      if fgt (fabs ci1) (Fin 1000) then
        Ok (setslice_from C (i + 1) NaN)
      else explicit_loop h k rest C
  end.

Definition generate_explicit_euler (h k C0 t_max : Q)
  : result (list Q * list np_float) :=
  let* q := py_div t_max h in
  let n_steps := (py_int q + 1)%Z in
  let* t := linspace 0 t_max n_steps in
  let* C := zeros n_steps in
  let* C := setitem C 0 (Fin C0) in
  let* C := explicit_loop h k (range (n_steps - 1)) C in
  Ok (t, C).

Fixpoint implicit_loop (h k : Q) (idx : list nat) (C : list np_float)
  : result (list np_float) :=
  match idx with
  | [] => Ok C
  | i :: rest =>
      let* ci := getitem C i in
      let* C := setitem C (i + 1) (fdiv ci (Fin (1 + h * k))) in
      implicit_loop h k rest C
  end.

Definition generate_implicit_euler (h k C0 t_max : Q)
  : result (list Q * list np_float) :=
  let* q := py_div t_max h in
  let n_steps := (py_int q + 1)%Z in
  let* t := linspace 0 t_max n_steps in
  let* C := zeros n_steps in
  let* C := setitem C 0 (Fin C0) in
  let* C := implicit_loop h k (range (n_steps - 1)) C in
  Ok (t, C).


(** ** The analysis of [main]

    [main] fixes [k = 0.5], [C0 = 4] and [t_max = 10]; the step size [h]
    comes from a slider and the method from a radio button.  The analysis
    is embedded as functions of these values; the analytical final value
    [C0 * exp(-k * t_max)] is a real number and enters as a parameter. *)

Inductive method_t : Type :=
  | ExplicitEuler
  | ImplicitEuler.

(** [critical_h = 2 / k]. *)
Definition critical_h (k : Q) : result Q := py_div 2 k.

(** [a[-1]]. *)
Definition getitem_last {A : Type} (a : list A) : result A :=
  match last a with
  | Some x => Ok x
  | None => Raise IndexError
  end.

(** The box shown by the accuracy column, with the values it prints:
    final value, analytical value and, except in the poor box, the relative
    error in per cent. *)
Inductive accuracy_box : Type :=
  | ExcellentAccuracy (final analytical relative : np_float)
  | GoodAccuracy (final analytical relative : np_float)
  | PoorAccuracy (final analytical : np_float)
  | ImplicitResults (final analytical relative : np_float).

Definition accuracy_analysis (method : method_t)
    (C_explicit C_implicit : list np_float) (analytical : Q)
  : result accuracy_box :=
  let C_analytical_final := Fin analytical in
  let* e_last := getitem_last C_explicit in
  let C_explicit_final := if negb (isnan e_last) then e_last else PInf in
  let* C_implicit_final := getitem_last C_implicit in
  let error_explicit := fabs (fsub C_explicit_final C_analytical_final) in
  let error_implicit := fabs (fsub C_implicit_final C_analytical_final) in
  match method with
  | ExplicitEuler =>
      if flt error_explicit (Fin (1 # 100)) then
        Ok (ExcellentAccuracy C_explicit_final C_analytical_final
              (fmul (fdiv error_explicit C_analytical_final) (Fin 100)))
      else if flt error_explicit (Fin (1 # 10)) then
        Ok (GoodAccuracy C_explicit_final C_analytical_final
              (fmul (fdiv error_explicit C_analytical_final) (Fin 100)))
      else
        Ok (PoorAccuracy C_explicit_final C_analytical_final)
  | ImplicitEuler =>
      Ok (ImplicitResults C_implicit_final C_analytical_final
            (fmul (fdiv error_implicit C_analytical_final) (Fin 100)))
  end.

(** The relative error a box reports, if it reports one. *)
Definition relative_error (b : accuracy_box) : option np_float :=
  match b with
  | ExcellentAccuracy _ _ r | GoodAccuracy _ _ r | ImplicitResults _ _ r =>
      Some r
  | PoorAccuracy _ _ => None
  end.

(** The accuracy tier a box stands for; the implicit box has none. *)
Inductive accuracy_tier : Type :=
  | Excellent
  | Good
  | Poor.

Definition tier_of (b : accuracy_box) : option accuracy_tier :=
  match b with
  | ExcellentAccuracy _ _ _ => Some Excellent
  | GoodAccuracy _ _ _ => Some Good
  | PoorAccuracy _ _ => Some Poor
  | ImplicitResults _ _ _ => None
  end.

(** The box shown by the stability column. *)
Inductive stability_box : Type :=
  | Unstable
  | NearStabilityLimit
  | StableRegion
  | AlwaysStable.

Definition stability_analysis (method : method_t) (h critical_h : Q)
  : stability_box :=
  match method with
  | ExplicitEuler =>
      if Qlt_bool critical_h h then Unstable
      else if Qlt_bool (critical_h * (8 # 10)) h then NearStabilityLimit
      else StableRegion
  | ImplicitEuler => AlwaysStable
  end.

(** ** Closed descriptions of the loops

    What the explicit loop leaves after an element [c] when [m] elements
    remain to be computed: the iterates of the update, cut at the first one
    above the threshold and filled with NaN from there; and the same for
    the implicit loop, which has no cut. *)

Fixpoint explicit_tail (h k c : Q) (m : nat) : list np_float :=
  match m with
  | O => []
  | S m' =>
      let c' := c + h * (- k * c) in
      if Qlt_bool 1000 (Qabs c') then replicate (S m') NaN
      else Fin c' :: explicit_tail h k c' m'
  end.

Fixpoint implicit_tail (h k : Q) (x : np_float) (m : nat) : list np_float :=
  match m with
  | O => []
  | S m' =>
      let x' := fdiv x (Fin (1 + h * k)) in
      x' :: implicit_tail h k x' m'
  end.

(** ** The analytical curve and the rest of [main]

    [np.exp] is a library function on reals; it enters as the parameter
    [np_exp]. *)

(** [generate_analytical_solution]: 1000 samples of [C0 * exp(-k * t)]. *)
Definition generate_analytical_solution (np_exp : Q -> Q) (k C0 t_max : Q)
  : result (list Q * list Q) :=
  let* t := linspace 0 t_max 1000 in
  let C_analytical := (fun ti => C0 * np_exp (- k * ti)) <$> t in
  Ok (t, C_analytical).

(** Python's [min(a, b)] and [max(a, b)]: the second argument wins only
    when it is strictly smaller, respectively larger. *)
Definition py_min (a b : np_float) : np_float := if flt b a then b else a.
Definition py_max (a b : np_float) : np_float := if flt a b then b else a.

(** [np.fmin] and [np.fmax]: the smaller, respectively larger, argument,
    a NaN giving way to the other one. *)
Definition fmin (x y : np_float) : np_float :=
  match x, y with
  | NaN, _ => y
  | _, NaN => x
  | _, _ => if flt y x then y else x
  end.

Definition fmax (x y : np_float) : np_float :=
  match x, y with
  | NaN, _ => y
  | _, NaN => x
  | _, _ => if flt x y then y else x
  end.

(** [np.nanmin(a)] and [np.nanmax(a)]: the reduction of the array by
    [fmin], respectively [fmax]; an empty array is refused. *)
Definition nanmin (a : list np_float) : result np_float :=
  match a with
  | [] => Raise ValueError
  | x :: xs => Ok (foldl fmin x xs)
  end.

Definition nanmax (a : list np_float) : result np_float :=
  match a with
  | [] => Raise ValueError
  | x :: xs => Ok (foldl fmax x xs)
  end.

(** [np.all(np.isnan(a))]. *)
Definition all_isnan (a : list np_float) : bool := forallb isnan a.

(** The limits passed to [ax.set_ylim]. *)
Definition y_limits (C0 : Q) (C_explicit : list np_float)
  : result (np_float * np_float) :=
  let* lo := if negb (all_isnan C_explicit) then nanmin C_explicit
             else Ok (Fin 0) in
  let y_min := py_max (Fin (- (10))) (py_min (Fin 0) lo) in
  let* hi := if negb (all_isnan C_explicit) then nanmax C_explicit
             else Ok (Fin C0) in
  let y_max := py_min (Fin 10) (py_max (Fin C0) hi) in
  Ok (y_min, y_max).

(** The curves drawn on the plot, in drawing order. *)
Inductive curve : Type :=
  | AnalyticalCurve
  | ExplicitCurve
  | ImplicitCurve.

Definition plotted_curves (show_both : bool) (method : method_t)
  : list curve :=
  AnalyticalCurve ::
  (if show_both then [ExplicitCurve; ImplicitCurve]
   else match method with
        | ExplicitEuler => [ExplicitCurve]
        | ImplicitEuler => [ImplicitCurve]
        end).

(** What one run of [main] displays. *)
Record main_output : Type := {
  out_curves : list curve;
  out_ylim : np_float * np_float;
  out_accuracy : accuracy_box;
  out_stability : stability_box
}.

(** [main], from the widget values [h], [method] and [show_both]. *)
Definition main (np_exp : Q -> Q) (h : Q) (method : method_t)
    (show_both : bool) : result main_output :=
  let k := 1 # 2 in
  let C0 := 4 in
  let t_max := 10 in
  let* critical_h := critical_h k in
  let* analytical := generate_analytical_solution np_exp k C0 t_max in
  let* explicit := generate_explicit_euler h k C0 t_max in
  let* implicit := generate_implicit_euler h k C0 t_max in
  let C_explicit := snd explicit in
  let C_implicit := snd implicit in
  let curves := plotted_curves show_both method in
  let* ylim := y_limits C0 C_explicit in
  let C_analytical_final := C0 * np_exp (- k * t_max) in
  let* accuracy :=
    accuracy_analysis method C_explicit C_implicit C_analytical_final in
  Ok {| out_curves := curves;
        out_ylim := ylim;
        out_accuracy := accuracy;
        out_stability := stability_analysis method h critical_h |}.

(** * Properties *)

(** ** Comparisons and [int] *)

Lemma Qlt_bool_iff (a b : Q) : Qlt_bool a b = true <-> a < b.
Proof.
  unfold Qlt_bool. rewrite negb_true_iff, <- not_true_iff_false, Qle_bool_iff.
  split; [apply Qnot_le_lt | apply Qlt_not_le].
Qed.

Lemma Qlt_bool_false (a b : Q) : Qlt_bool a b = false <-> b <= a.
Proof.
  unfold Qlt_bool. rewrite negb_false_iff. apply Qle_bool_iff.
Qed.

(** Splits a goal made of conjunctions and equivalences into its parts. *)
Ltac split_all :=
  repeat match goal with
         | |- _ /\ _ => split
         | |- _ <-> _ => split
         end.

(** Turns the boolean comparisons among the hypotheses into propositions. *)
Ltac reflect_hyps :=
  repeat match goal with
         | H : _ /\ _ |- _ => destruct H
         | H : Qle_bool _ _ = true |- _ => apply Qle_bool_iff in H
         end.

Lemma py_div_ok (a b : Q) : ~ b == 0 -> py_div a b = Ok (a / b).
Proof.
  intros Hb. unfold py_div.
  destruct (Qeq_bool b 0) eqn:E; [|reflexivity].
  apply Qeq_bool_iff in E. contradiction.
Qed.

Lemma py_div_zero (a b : Q) : b == 0 -> py_div a b = Raise ZeroDivisionError.
Proof.
  intros Hb. unfold py_div. apply Qeq_bool_iff in Hb. now rewrite Hb.
Qed.

(** On non-negative values truncation is the floor. *)
Lemma py_int_floor (x : Q) : 0 <= x -> py_int x = Qfloor x.
Proof.
  destruct x as [n d]. unfold py_int, Qfloor, Qle. simpl. intros H.
  apply Z.quot_div_nonneg; lia.
Qed.

Lemma Qfloor_nonneg (x : Q) : 0 <= x -> (0 <= Qfloor x)%Z.
Proof.
  intros H. change 0%Z with (Qfloor (inject_Z 0)).
  now apply Qfloor_resp_le.
Qed.

(** ** The loops compute their closed descriptions *)

Section Loops.
Variables h k : Q.

Lemma getitem_middle {A : Type} (pre : list A) (x : A) (post : list A) :
  getitem (pre ++ x :: post) (length pre) = Ok x.
Proof.
  unfold getitem. now rewrite list_lookup_middle.
Qed.

Lemma setitem_next {A : Type} (pre : list A) (x y v : A) (post : list A) :
  setitem (pre ++ x :: y :: post) (length pre + 1) v
  = Ok ((pre ++ [x]) ++ v :: post).
Proof.
  unfold setitem. rewrite length_app. simpl.
  destruct (decide _) as [_|Hn]; [|lia].
  f_equal. rewrite <- app_assoc. simpl.
  rewrite insert_app_r_alt by lia.
  replace (length pre + 1 - length pre)%nat with 1%nat by lia.
  reflexivity.
Qed.

Lemma explicit_loop_spec (m : nat) :
  forall (pre : list np_float) (c : Q),
    explicit_loop h k (seq (length pre) m)
      (pre ++ Fin c :: replicate m (Fin 0))
    = Ok (pre ++ Fin c :: explicit_tail h k c m).
Proof.
  induction m as [|m IH]; intros pre c; [reflexivity|].
  cbn [seq explicit_loop replicate explicit_tail].
  rewrite getitem_middle. cbn [rbind].
  rewrite setitem_next. cbn [rbind fmul fadd].
  assert (Hlen : (length pre + 1)%nat = length (pre ++ [Fin c]))
    by (rewrite length_app; simpl; lia).
  rewrite Hlen at 1. rewrite getitem_middle. cbn [rbind fabs fgt flt].
  destruct (Qlt_bool 1000 (Qabs (c + h * (- k * c)))) eqn:Hgt.
  - f_equal. unfold setslice_from. rewrite Hlen.
    rewrite take_app_length. rewrite !length_app. cbn [length].
    rewrite length_replicate, <- app_assoc. simpl.
    replace (length pre + 1 + S m - (length pre + 1))%nat with (S m) by lia.
    reflexivity.
  - replace (S (length pre)) with (length (pre ++ [Fin c]))
      by (rewrite length_app; simpl; lia).
    rewrite IH. now rewrite <- app_assoc.
Qed.

Lemma implicit_loop_spec (m : nat) :
  forall (pre : list np_float) (x : np_float),
    implicit_loop h k (seq (length pre) m)
      (pre ++ x :: replicate m (Fin 0))
    = Ok (pre ++ x :: implicit_tail h k x m).
Proof.
  induction m as [|m IH]; intros pre x; [reflexivity|].
  cbn [seq implicit_loop replicate implicit_tail].
  rewrite getitem_middle. cbn [rbind].
  rewrite setitem_next. cbn [rbind].
  replace (S (length pre)) with (length (pre ++ [x]))
    by (rewrite length_app; simpl; lia).
  rewrite IH. now rewrite <- app_assoc.
Qed.

Lemma length_explicit_tail (m : nat) :
  forall c, length (explicit_tail h k c m) = m.
Proof.
  induction m as [|m IH]; intros c; [reflexivity|].
  cbn [explicit_tail]. destruct (Qlt_bool _ _).
  - now rewrite length_replicate.
  - simpl. now rewrite IH.
Qed.

Lemma length_implicit_tail (m : nat) :
  forall x, length (implicit_tail h k x m) = m.
Proof.
  induction m as [|m IH]; intros x; [reflexivity|].
  simpl. now rewrite IH.
Qed.

End Loops.

(** ** The time grid *)

Lemma linspace_length (start stop : Q) (num : Z) (t : list Q) :
  linspace start stop num = Ok t -> length t = Z.to_nat num.
Proof.
  unfold linspace, range.
  destruct (num <? 0)%Z; [discriminate|].
  destruct (0 <? num - 1)%Z; intros [= <-];
    rewrite ?length_insert, !length_fmap, length_seq; reflexivity.
Qed.

Lemma linspace_ok (start stop : Q) (num : Z) :
  (0 <= num)%Z -> exists t, linspace start stop num = Ok t.
Proof.
  intros H. unfold linspace.
  destruct (num <? 0)%Z eqn:E; [lia|].
  destruct (0 <? num - 1)%Z; eauto.
Qed.

Lemma linspace_single (start stop : Q) (t : list Q) :
  linspace start stop 1 = Ok t ->
  exists t0, t = [t0] /\ t0 == start.
Proof.
  cbv [linspace range]. simpl. intros [= <-].
  eexists. split; [reflexivity|]. ring.
Qed.

Lemma linspace_lookup (start stop : Q) (num : Z) (t : list Q) (i : nat) :
  (1 < num)%Z ->
  linspace start stop num = Ok t ->
  (i < Z.to_nat num)%nat ->
  exists ti, t !! i = Some ti /\
    ti == start + inject_Z (Z.of_nat i) * ((stop - start) / inject_Z (num - 1)).
Proof.
  intros Hnum Ht Hi. unfold linspace, range in Ht.
  destruct (num <? 0)%Z eqn:E0; [lia|].
  destruct (0 <? num - 1)%Z eqn:E1; [|lia].
  injection Ht as <-.
  assert (Hd : ~ inject_Z (num - 1) == 0).
  { change 0 with (inject_Z 0). rewrite inject_Z_injective. lia. }
  destruct (decide (i = Z.to_nat (num - 1))) as [->|Hne].
  - exists stop. split.
    + apply list_lookup_insert_eq.
      rewrite !length_fmap, length_seq. lia.
    + rewrite Z2Nat.id by lia. field. exact Hd.
  - eexists. split.
    + rewrite list_lookup_insert_ne by congruence.
      rewrite !list_lookup_fmap, lookup_seq_lt by lia. reflexivity.
    + simpl. ring.
Qed.

Lemma linspace_last (start stop : Q) (num : Z) (t : list Q) :
  (1 < num)%Z ->
  linspace start stop num = Ok t ->
  t !! Z.to_nat (num - 1) = Some stop.
Proof.
  intros Hnum Ht. unfold linspace, range in Ht.
  destruct (num <? 0)%Z eqn:E0; [lia|].
  destruct (0 <? num - 1)%Z eqn:E1; [|lia].
  injection Ht as <-. apply list_lookup_insert_eq.
  rewrite !length_fmap, length_seq. lia.
Qed.

(** ** The integrators in closed form *)

Section Generators.
Variables h k C0 t_max : Q.

Lemma first_cell (m : nat) (x : np_float) :
  setitem (replicate (S m) (Fin 0)) 0 x = Ok (x :: replicate m (Fin 0)).
Proof.
  unfold setitem. destruct (decide _) as [_|Hn]; [reflexivity|].
  simpl in Hn. lia.
Qed.

Lemma generate_explicit_euler_eq :
  ~ h == 0 ->
  (0 <= py_int (t_max / h))%Z ->
  exists t,
    linspace 0 t_max (py_int (t_max / h) + 1) = Ok t /\
    generate_explicit_euler h k C0 t_max
    = Ok (t, Fin C0 :: explicit_tail h k C0 (Z.to_nat (py_int (t_max / h)))).
Proof.
  intros Hh Hm.
  destruct (linspace_ok 0 t_max (py_int (t_max / h) + 1)) as [t Ht]; [lia|].
  exists t. split; [exact Ht|].
  unfold generate_explicit_euler. rewrite py_div_ok by exact Hh.
  cbn [rbind]. rewrite Ht. cbn [rbind]. unfold zeros, range.
  destruct (py_int (t_max / h) + 1 <? 0)%Z eqn:E; [lia|]. cbn [rbind].
  replace (Z.to_nat (py_int (t_max / h) + 1))
    with (S (Z.to_nat (py_int (t_max / h)))) by lia.
  rewrite first_cell. cbn [rbind].
  replace (py_int (t_max / h) + 1 - 1)%Z with (py_int (t_max / h)) by lia.
  pose proof (explicit_loop_spec h k (Z.to_nat (py_int (t_max / h))) [] C0)
    as Hloop.
  simpl in Hloop. rewrite Hloop. reflexivity.
Qed.

Lemma generate_implicit_euler_eq :
  ~ h == 0 ->
  (0 <= py_int (t_max / h))%Z ->
  exists t,
    linspace 0 t_max (py_int (t_max / h) + 1) = Ok t /\
    generate_implicit_euler h k C0 t_max
    = Ok (t, Fin C0 ::
             implicit_tail h k (Fin C0) (Z.to_nat (py_int (t_max / h)))).
Proof.
  intros Hh Hm.
  destruct (linspace_ok 0 t_max (py_int (t_max / h) + 1)) as [t Ht]; [lia|].
  exists t. split; [exact Ht|].
  unfold generate_implicit_euler. rewrite py_div_ok by exact Hh.
  cbn [rbind]. rewrite Ht. cbn [rbind]. unfold zeros, range.
  destruct (py_int (t_max / h) + 1 <? 0)%Z eqn:E; [lia|]. cbn [rbind].
  replace (Z.to_nat (py_int (t_max / h) + 1))
    with (S (Z.to_nat (py_int (t_max / h)))) by lia.
  rewrite first_cell. cbn [rbind].
  replace (py_int (t_max / h) + 1 - 1)%Z with (py_int (t_max / h)) by lia.
  pose proof (implicit_loop_spec h k (Z.to_nat (py_int (t_max / h))) []
                (Fin C0)) as Hloop.
  simpl in Hloop. rewrite Hloop. reflexivity.
Qed.

(** The only ways an integrator fails: the division [t_max / h], a
    negative sample count, and an empty array at [C[0] = C0]. *)
Lemma generate_explicit_euler_zero_step :
  h == 0 -> generate_explicit_euler h k C0 t_max = Raise ZeroDivisionError.
Proof.
  intros Hh. unfold generate_explicit_euler. now rewrite py_div_zero.
Qed.

Lemma generate_implicit_euler_zero_step :
  h == 0 -> generate_implicit_euler h k C0 t_max = Raise ZeroDivisionError.
Proof.
  intros Hh. unfold generate_implicit_euler. now rewrite py_div_zero.
Qed.

Lemma generate_explicit_euler_negative_count :
  ~ h == 0 -> (py_int (t_max / h) + 1 < 0)%Z ->
  generate_explicit_euler h k C0 t_max = Raise ValueError.
Proof.
  intros Hh Hn. unfold generate_explicit_euler.
  rewrite py_div_ok by exact Hh. cbn [rbind]. unfold linspace.
  destruct (py_int (t_max / h) + 1 <? 0)%Z eqn:E; [reflexivity|lia].
Qed.

Lemma generate_implicit_euler_negative_count :
  ~ h == 0 -> (py_int (t_max / h) + 1 < 0)%Z ->
  generate_implicit_euler h k C0 t_max = Raise ValueError.
Proof.
  intros Hh Hn. unfold generate_implicit_euler.
  rewrite py_div_ok by exact Hh. cbn [rbind]. unfold linspace.
  destruct (py_int (t_max / h) + 1 <? 0)%Z eqn:E; [reflexivity|lia].
Qed.

Lemma generate_explicit_euler_empty :
  ~ h == 0 -> (py_int (t_max / h) + 1 = 0)%Z ->
  generate_explicit_euler h k C0 t_max = Raise IndexError.
Proof.
  intros Hh Hn. unfold generate_explicit_euler.
  rewrite py_div_ok by exact Hh. cbn [rbind]. rewrite Hn. reflexivity.
Qed.

Lemma generate_implicit_euler_empty :
  ~ h == 0 -> (py_int (t_max / h) + 1 = 0)%Z ->
  generate_implicit_euler h k C0 t_max = Raise IndexError.
Proof.
  intros Hh Hn. unfold generate_implicit_euler.
  rewrite py_div_ok by exact Hh. cbn [rbind]. rewrite Hn. reflexivity.
Qed.

Lemma generate_explicit_euler_inv (t : list Q) (C : list np_float) :
  generate_explicit_euler h k C0 t_max = Ok (t, C) ->
  ~ h == 0 /\ (0 <= py_int (t_max / h))%Z /\
  C = Fin C0 :: explicit_tail h k C0 (Z.to_nat (py_int (t_max / h))).
Proof.
  intros H.
  destruct (Qeq_dec h 0) as [Hz|Hnz].
  { rewrite generate_explicit_euler_zero_step in H by exact Hz.
    discriminate. }
  destruct (Z.lt_total (py_int (t_max / h) + 1) 0) as [Hn|[Hn|Hn]].
  { rewrite generate_explicit_euler_negative_count in H by assumption.
    discriminate. }
  { rewrite generate_explicit_euler_empty in H by assumption.
    discriminate. }
  destruct generate_explicit_euler_eq as (t' & _ & E);
    [exact Hnz|lia|].
  rewrite E in H. injection H as _ <-.
  repeat split; [exact Hnz|lia].
Qed.

(** For a positive step and horizon the sample count is
    [floor(t_max / h) + 1]. *)
Lemma steps_positive :
  0 < h -> 0 < t_max ->
  ~ h == 0 /\ py_int (t_max / h) = Qfloor (t_max / h) /\
  (0 <= Qfloor (t_max / h))%Z.
Proof.
  intros Hh Ht.
  assert (Hq : 0 <= t_max / h).
  { apply Qlt_le_weak. apply Qlt_shift_div_l; [exact Hh|]. lra. }
  repeat split.
  - intros E. rewrite E in Hh. discriminate.
  - now apply py_int_floor.
  - now apply Qfloor_nonneg.
Qed.

End Generators.

(** ** The explicit sequence, element by element *)

Section ExplicitTail.
Variables h k : Q.


(** Two neighbouring elements: a number followed by its update when the
    update is within the threshold, a number followed by NaN when it is
    not, or two NaN. *)
Lemma explicit_tail_neighbours (m : nat) :
  forall (c : Q) (i : nat) (x y : np_float),
    (Fin c :: explicit_tail h k c m) !! i = Some x ->
    (Fin c :: explicit_tail h k c m) !! S i = Some y ->
    (exists a, x = Fin a /\
       ((Qabs (a + h * (- k * a)) <= 1000 /\ y = Fin (a + h * (- k * a))) \/
        (1000 < Qabs (a + h * (- k * a)) /\ y = NaN)))
    \/ (x = NaN /\ y = NaN).
Proof.
  induction m as [|m IH]; intros c i x y Hx Hy.
  - destruct i; discriminate.
  - cbn [explicit_tail] in Hx, Hy.
    destruct (Qlt_bool 1000 (Qabs (c + h * (- k * c)))) eqn:E.
    + apply Qlt_bool_iff in E. destruct i as [|i].
      * injection Hx as <-. injection Hy as <-. left. eauto.
      * change ((replicate (S m) NaN : list np_float) !! i = Some x) in Hx.
        change ((replicate (S m) NaN : list np_float) !! S i = Some y) in Hy.
        apply lookup_replicate in Hx as [-> _].
        apply lookup_replicate in Hy as [-> _]. now right.
    + apply Qlt_bool_false in E. destruct i as [|i].
      * injection Hx as <-. injection Hy as <-. left. eauto.
      * exact (IH _ i x y Hx Hy).
Qed.

Lemma explicit_tail_nan_suffix (m : nat) (c : Q) (i j : nat) :
  (Fin c :: explicit_tail h k c m) !! i = Some NaN ->
  (i <= j)%nat ->
  (j < length (Fin c :: explicit_tail h k c m))%nat ->
  (Fin c :: explicit_tail h k c m) !! j = Some NaN.
Proof.
  intros Hi Hij. induction Hij as [|j Hij IH]; intros Hj; [exact Hi|].
  assert (Hj' : (Fin c :: explicit_tail h k c m) !! j = Some NaN)
    by (apply IH; lia).
  destruct (lookup_lt_is_Some_2 _ _ Hj) as [y Hy].
  destruct (explicit_tail_neighbours m c j NaN y Hj' Hy)
    as [(a & Ha & _)|[_ ->]]; [discriminate|exact Hy].
Qed.

Lemma explicit_tail_bounded (m : nat) (c : Q) (i : nat) (x : np_float) :
  (Fin c :: explicit_tail h k c m) !! S i = Some x ->
  x = NaN \/ exists a, x = Fin a /\ Qabs a <= 1000.
Proof.
  intros Hx.
  assert (Hi : (i < length (Fin c :: explicit_tail h k c m))%nat).
  { apply lookup_lt_Some in Hx. lia. }
  destruct (lookup_lt_is_Some_2 _ _ Hi) as [w Hw].
  destruct (explicit_tail_neighbours m c i w x Hw Hx)
    as [(a & _ & [[Hle ->]|[_ ->]])|[_ ->]]; eauto.
Qed.

Lemma explicit_tail_cells (m : nat) (c : Q) (i : nat) (x : np_float) :
  (Fin c :: explicit_tail h k c m) !! i = Some x ->
  x = NaN \/ exists a, x = Fin a.
Proof.
  destruct i as [|i].
  - intros [= <-]. eauto.
  - intros Hx. destruct (explicit_tail_bounded m c i x Hx)
      as [->|(a & -> & _)]; eauto.
Qed.

(** A number is always preceded by the number it was computed from. *)
Lemma explicit_tail_predecessor (m : nat) (c : Q) (i : nat) (b : Q) :
  (Fin c :: explicit_tail h k c m) !! S i = Some (Fin b) ->
  exists a, (Fin c :: explicit_tail h k c m) !! i = Some (Fin a) /\
            b = a + h * (- k * a) /\ Qabs b <= 1000.
Proof.
  intros Hb.
  assert (Hi : (i < length (Fin c :: explicit_tail h k c m))%nat).
  { apply lookup_lt_Some in Hb. lia. }
  destruct (lookup_lt_is_Some_2 _ _ Hi) as [w Hw].
  destruct (explicit_tail_neighbours m c i w (Fin b) Hw Hb)
    as [(a & -> & [[Hle E]|[_ E]])|[_ E]]; try discriminate.
  injection E as ->. eauto.
Qed.

End ExplicitTail.

(** * The explicit integrator *)

(** C1.  The code at the slider's step size 3 with the constants of [main]:
    the four time points are 0, 10/3, 20/3, 10, which lie 10/3 apart and not
    [h = 3], while the values 4, -2, 1, -1/2 are the Euler iterates of the
    times 0, 3, 6, 9; the last one is paired with the time 10. *)
Lemma explicit_euler_grid_mismatch :
  exists t0 t1 t2 t3 c1 c2 c3 : Q,
    generate_explicit_euler 3 (1 # 2) 4 10
    = Ok ([t0; t1; t2; t3], [Fin 4; Fin c1; Fin c2; Fin c3]) /\
    t0 == 0 /\ t1 == 10 # 3 /\ t2 == 20 # 3 /\ t3 == 10 /\
    c1 == 4 * (1 - 3 * (1 # 2)) /\
    c2 == c1 * (1 - 3 * (1 # 2)) /\
    c3 == c2 * (1 - 3 * (1 # 2)) /\
    ~ t1 - t0 == 3 /\ ~ t3 == 3 * 3.
Proof.
  do 7 eexists. split; [vm_compute; reflexivity|].
  split_all; try reflexivity; intros H; vm_compute in H; discriminate.
Qed.

(** C2.  For [h > 0], [k > 0] and [t_max > 0] the explicit integrator
    returns [int(t_max / h) + 1] values against as many time points, the
    first value being [C0], and from there on: a numeric element whose
    update is within the threshold is followed by that update; when the
    update exceeds 1000 in magnitude, the next element and every later one
    are NaN; nothing after a NaN is a number; and a NaN appears only where
    the update of the number before it exceeded the threshold, or after
    another NaN. *)
Theorem explicit_euler_divergence_policy (h k C0 t_max : Q) :
  0 < h -> 0 < k -> 0 < t_max ->
  exists (q : Q) (t : list Q) (C : list np_float),
    py_div t_max h = Ok q /\
    generate_explicit_euler h k C0 t_max = Ok (t, C) /\
    length C = S (Z.to_nat (py_int q)) /\
    length t = length C /\
    C !! 0%nat = Some (Fin C0) /\
    (forall (i : nat) (a : Q),
       C !! i = Some (Fin a) -> (S i < length C)%nat ->
       (Qabs (a + h * (- k * a)) <= 1000 ->
          C !! S i = Some (Fin (a + h * (- k * a)))) /\
       (1000 < Qabs (a + h * (- k * a)) ->
          forall j : nat, (i < j < length C)%nat -> C !! j = Some NaN)) /\
    (forall i j : nat,
       C !! i = Some NaN -> (i <= j < length C)%nat -> C !! j = Some NaN) /\
    (forall i : nat,
       C !! S i = Some NaN ->
       C !! i = Some NaN \/
       exists a, C !! i = Some (Fin a) /\ 1000 < Qabs (a + h * (- k * a))).
Proof.
  intros Hh _ Ht.
  destruct (steps_positive h t_max Hh Ht) as (Hnz & Hint & Hm).
  destruct (generate_explicit_euler_eq h k C0 t_max Hnz) as (t & Hlin & E);
    [lia|].
  set (m := Z.to_nat (py_int (t_max / h))) in E.
  exists (t_max / h), t, (Fin C0 :: explicit_tail h k C0 m).
  split; [now apply py_div_ok|].
  split; [exact E|].
  assert (Hlen : length (Fin C0 :: explicit_tail h k C0 m) = S m)
    by (cbn [length]; now rewrite length_explicit_tail).
  split; [exact Hlen|].
  split; [rewrite Hlen, (linspace_length _ _ _ _ Hlin); unfold m; lia|].
  split; [reflexivity|].
  assert (Hnext : forall (i : nat) (a : Q),
    (Fin C0 :: explicit_tail h k C0 m) !! i = Some (Fin a) ->
    (S i < length (Fin C0 :: explicit_tail h k C0 m))%nat ->
    (Qabs (a + h * (- k * a)) <= 1000 /\
     (Fin C0 :: explicit_tail h k C0 m) !! S i
       = Some (Fin (a + h * (- k * a)))) \/
    (1000 < Qabs (a + h * (- k * a)) /\
     (Fin C0 :: explicit_tail h k C0 m) !! S i = Some NaN)).
  { intros i a Ha Hi.
    destruct (lookup_lt_is_Some_2 _ _ Hi) as [y Hy].
    destruct (explicit_tail_neighbours h k m C0 i (Fin a) y Ha Hy)
      as [(a' & Ea & [[Hle ->]|[Hgt ->]])|[Ea _]]; try discriminate;
      injection Ea as <-; [left|right]; eauto. }
  split; [|split].
  - intros i a Ha Hi.
    destruct (Hnext i a Ha Hi) as [[Hle Hy]|[Hgt Hy]]; split.
    + intros _. exact Hy.
    + intros Hgt. exfalso. apply (Qlt_not_le _ _ Hgt). exact Hle.
    + intros Hle. exfalso. apply (Qlt_not_le _ _ Hgt). exact Hle.
    + intros _ j [Hij Hj].
      apply (explicit_tail_nan_suffix h k m C0 (S i) j Hy); [lia|exact Hj].
  - intros i j Hi [Hij Hj].
    exact (explicit_tail_nan_suffix h k m C0 i j Hi Hij Hj).
  - intros i Hy.
    assert (Hi : (i < length (Fin C0 :: explicit_tail h k C0 m))%nat).
    { apply lookup_lt_Some in Hy. lia. }
    destruct (lookup_lt_is_Some_2 _ _ Hi) as [x Hx].
    destruct (explicit_tail_neighbours h k m C0 i x NaN Hx Hy)
      as [(a & -> & [[_ Ey]|[Hgt _]])|[-> _]]; try discriminate; eauto.
Qed.

Lemma explicit_euler_divergence_policy_witness :
  exists (t : list Q) (C : list np_float),
    generate_explicit_euler 1 6 100 3 = Ok (t, C) /\
    length C = 4%nat /\ length t = 4%nat /\
    C !! 0%nat = Some (Fin 100) /\
    C !! 1%nat = Some (Fin (100 + 1 * (- 6 * 100))) /\
    forall j : nat, (1 < j < length C)%nat -> C !! j = Some NaN.
Proof.
  destruct (explicit_euler_divergence_policy 1 6 100 3)
    as (q & t & C & Hq & E & Hlen & Hlt & H0 & Hnext & _ & _);
    [reflexivity..|].
  assert (Eq : q = 3 / 1).
  { assert (E' : py_div 3 1 = Ok (3 / 1)) by reflexivity.
    rewrite E' in Hq. now injection Hq as <-. }
  subst q. change (S (Z.to_nat (py_int (3 / 1)))) with 4%nat in Hlen.
  exists t, C. split; [exact E|]. split; [exact Hlen|].
  split; [now rewrite Hlt|]. split; [exact H0|].
  assert (H1 : C !! 1%nat = Some (Fin (100 + 1 * (- 6 * 100)))).
  { apply (Hnext 0%nat 100 H0); [rewrite Hlen; lia|discriminate]. }
  split; [exact H1|].
  apply (Hnext 1%nat (100 + 1 * (- 6 * 100)) H1); [rewrite Hlen; lia|].
  reflexivity.
Defined.

(** C10.  In every trajectory the explicit integrator returns, the first
    value is [C0] itself, whatever its magnitude, and every later element
    is NaN or a number of magnitude at most 1000. *)
Theorem explicit_euler_values_bounded
    (h k C0 t_max : Q) (t : list Q) (C : list np_float) :
  generate_explicit_euler h k C0 t_max = Ok (t, C) ->
  C !! 0%nat = Some (Fin C0) /\
  forall (i : nat) (x : np_float),
    (1 <= i)%nat -> C !! i = Some x ->
    x = NaN \/ exists a, x = Fin a /\ Qabs a <= 1000.
Proof.
  intros E.
  destruct (generate_explicit_euler_inv h k C0 t_max t C E) as (_ & _ & ->).
  split; [reflexivity|].
  intros [|i] x Hi Hx; [lia|].
  exact (explicit_tail_bounded h k _ _ _ _ Hx).
Qed.

Lemma explicit_euler_values_bounded_witness :
  [Fin 2000; Fin (2000 + 1 * (- (1 # 2) * 2000))] !! 0%nat = Some (Fin 2000) /\
  1000 < Qabs 2000 /\
  forall (i : nat) (x : np_float),
    (1 <= i)%nat ->
    [Fin 2000; Fin (2000 + 1 * (- (1 # 2) * 2000))] !! i = Some x ->
    x = NaN \/ exists a, x = Fin a /\ Qabs a <= 1000.
Proof.
  pose proof (explicit_euler_values_bounded 1 (1 # 2) 2000 1
                [0 # 1; 1] [Fin 2000; Fin (2000 + 1 * (- (1 # 2) * 2000))])
    as H.
  destruct H as [H0 Hb]; [vm_compute; reflexivity|].
  split; [exact H0|]. split; [reflexivity|exact Hb].
Defined.

(** * The implicit integrator *)

Section ImplicitTail.
Variables h k : Q.
Hypothesis Hden : ~ 1 + h * k == 0.

Lemma fdiv_fin (a : Q) :
  fdiv (Fin a) (Fin (1 + h * k)) = Fin (a / (1 + h * k)).
Proof.
  cbn [fdiv]. destruct (Qeq_bool (1 + h * k) 0) eqn:E; [|reflexivity].
  apply Qeq_bool_iff in E. contradiction.
Qed.

Lemma implicit_tail_neighbours (m : nat) :
  forall (c : Q) (i : nat),
    (S i < length (Fin c :: implicit_tail h k (Fin c) m))%nat ->
    exists a,
      (Fin c :: implicit_tail h k (Fin c) m) !! i = Some (Fin a) /\
      (Fin c :: implicit_tail h k (Fin c) m) !! S i
        = Some (Fin (a / (1 + h * k))).
Proof.
  induction m as [|m IH]; intros c i Hi.
  - simpl in Hi. lia.
  - cbn [implicit_tail] in *. rewrite fdiv_fin in *.
    destruct i as [|i].
    + exists c. split; reflexivity.
    + apply (IH (c / (1 + h * k)) i). simpl in Hi |- *. lia.
Qed.

Lemma implicit_tail_cells (m : nat) (c : Q) (i : nat) (x : np_float) :
  (Fin c :: implicit_tail h k (Fin c) m) !! i = Some x ->
  exists a, x = Fin a.
Proof.
  destruct i as [|i].
  - intros [= <-]. eauto.
  - intros Hx.
    destruct (implicit_tail_neighbours m c i) as (a & _ & Hy).
    { apply lookup_lt_Some in Hx. exact Hx. }
    rewrite Hy in Hx. injection Hx as <-. eauto.
Qed.

End ImplicitTail.

Lemma implicit_update_shrinks (h k a : Q) :
  0 < h -> 0 < k -> Qabs (a / (1 + h * k)) <= Qabs a.
Proof.
  intros Hh Hk.
  assert (Hhk : 0 < h * k) by (apply Qmult_lt_0_compat; assumption).
  assert (Hd : 0 < 1 + h * k) by lra.
  unfold Qdiv. rewrite Qabs_Qmult, Qabs_Qinv, (Qabs_pos (1 + h * k)) by lra.
  apply Qle_shift_div_r; [exact Hd|].
  pose proof (Qabs_nonneg a) as Ha.
  assert (0 <= Qabs a * (h * k)) by (apply Qmult_le_0_compat; lra).
  lra.
Qed.

(** C3.  For [h > 0], [k > 0] and [t_max > 0] the implicit integrator
    returns [int(t_max / h) + 1] values, the first is [C0], each next one
    is the previous one divided by [1 + h * k], so magnitudes never
    increase, and no element is NaN. *)
Theorem implicit_euler_trajectory (h k C0 t_max : Q) :
  0 < h -> 0 < k -> 0 < t_max ->
  exists (t : list Q) (C : list np_float),
    generate_implicit_euler h k C0 t_max = Ok (t, C) /\
    (exists q : Q,
       py_div t_max h = Ok q /\ length C = S (Z.to_nat (py_int q))) /\
    C !! 0%nat = Some (Fin C0) /\
    (forall i : nat, (S i < length C)%nat ->
       exists a,
         C !! i = Some (Fin a) /\
         C !! S i = Some (Fin (a / (1 + h * k))) /\
         Qabs (a / (1 + h * k)) <= Qabs a) /\
    (forall (i : nat) (x : np_float), C !! i = Some x -> isnan x = false).
Proof.
  intros Hh Hk Ht.
  destruct (steps_positive h t_max Hh Ht) as (Hnz & Hint & Hm).
  destruct (generate_implicit_euler_eq h k C0 t_max Hnz) as (t & _ & E);
    [lia|].
  assert (Hden : ~ 1 + h * k == 0).
  { assert (0 < h * k) by (apply Qmult_lt_0_compat; assumption).
    intros Hz. lra. }
  eexists t, _. split; [exact E|].
  split.
  { exists (t_max / h). split; [now apply py_div_ok|].
    cbn [length]. now rewrite length_implicit_tail. }
  split; [reflexivity|].
  split.
  - intros i Hi.
    destruct (implicit_tail_neighbours h k Hden _ C0 i Hi) as (a & Ha & Hb).
    exists a. split; [exact Ha|]. split; [exact Hb|].
    now apply implicit_update_shrinks.
  - intros i x Hx.
    destruct (implicit_tail_cells h k Hden _ _ _ _ Hx) as [a ->].
    reflexivity.
Qed.

Lemma implicit_euler_trajectory_witness :
  exists (t : list Q) (C : list np_float),
    generate_implicit_euler 5 (1 # 2) 4 10 = Ok (t, C) /\
    length C = 3%nat /\
    forall (i : nat) (x : np_float), C !! i = Some x -> isnan x = false.
Proof.
  destruct (implicit_euler_trajectory 5 (1 # 2) 4 10)
    as (t & C & E & (q & Hq & Hlen) & _ & _ & Hnan); [reflexivity..|].
  assert (Eq : q = 10 / 5).
  { assert (E' : py_div 10 5 = Ok (10 / 5)) by reflexivity.
    rewrite E' in Hq. now injection Hq as <-. }
  subst q. exists t, C. split; [exact E|]. split; [exact Hlen|exact Hnan].
Defined.

(** * The analysis *)

(** C4.  For [h > 0] and [k > 0], with [h_critical = 2 / k]: the explicit
    method is classified unstable iff [h > h_critical], near the limit iff
    [h <= h_critical] and [h > 0.8 * h_critical], and stable otherwise,
    that is iff [h <= 0.8 * h_critical]; the implicit method is
    unconditionally stable for every step size. *)
Theorem stability_classification (h k : Q) :
  0 < h -> 0 < k ->
  exists hc : Q,
    critical_h k = Ok hc /\ hc = 2 / k /\
    (stability_analysis ExplicitEuler h hc = Unstable <-> hc < h) /\
    (stability_analysis ExplicitEuler h hc = NearStabilityLimit <->
       h <= hc /\ hc * (8 # 10) < h) /\
    (stability_analysis ExplicitEuler h hc = StableRegion <->
       ~ hc < h /\ ~ (h <= hc /\ hc * (8 # 10) < h)) /\
    (stability_analysis ExplicitEuler h hc = StableRegion <->
       h <= hc * (8 # 10)) /\
    (forall h' : Q, stability_analysis ImplicitEuler h' hc = AlwaysStable).
Proof.
  intros Hh Hk. exists (2 / k).
  assert (Hhc : 0 < 2 / k) by (apply Qlt_shift_div_l; lra).
  split.
  { unfold critical_h. apply py_div_ok. intros E. rewrite E in Hk.
    discriminate. }
  split; [reflexivity|].
  unfold stability_analysis.
  destruct (Qlt_bool (2 / k) h) eqn:E1;
    [apply Qlt_bool_iff in E1
    |apply Qlt_bool_false in E1;
     destruct (Qlt_bool (2 / k * (8 # 10)) h) eqn:E2;
     [apply Qlt_bool_iff in E2|apply Qlt_bool_false in E2]];
    split_all;
    intros; try discriminate; try reflexivity; lra.
Qed.

Lemma stability_classification_witness :
  exists hc : Q,
    critical_h (1 # 2) = Ok hc /\
    (stability_analysis ExplicitEuler (9 # 2) hc = Unstable <-> hc < 9 # 2).
Proof.
  destruct (stability_classification (9 # 2) (1 # 2))
    as (hc & Hc & _ & Hu & _); [reflexivity..|].
  exists hc. split; [exact Hc|exact Hu].
Defined.

(** C6 (as amended).  With [k = 0.5], so [h_critical = 4]: the step size
    4.0 is classified near the limit, 4.01 unstable and 3.3 near the
    limit. *)
Theorem stability_boundary :
  exists hc : Q,
    critical_h (1 # 2) = Ok hc /\ hc == 4 /\
    stability_analysis ExplicitEuler 4 hc = NearStabilityLimit /\
    stability_analysis ExplicitEuler (401 # 100) hc = Unstable /\
    stability_analysis ExplicitEuler (33 # 10) hc = NearStabilityLimit.
Proof.
  eexists. split; [reflexivity|]. repeat split.
Qed.

(** C6 (as stated) fails: the step size 4.0 is not classified stable. *)
Lemma stability_boundary_counterexample :
  exists hc : Q,
    critical_h (1 # 2) = Ok hc /\ hc == 4 /\
    stability_analysis ExplicitEuler 4 hc <> StableRegion.
Proof.
  eexists. split; [reflexivity|]. split; [reflexivity|].
  vm_compute. discriminate.
Qed.

Lemma accuracy_analysis_explicit
    (C_explicit C_implicit : list np_float) (x y : np_float) (analytical : Q) :
  last C_explicit = Some x ->
  last C_implicit = Some y ->
  let final := if negb (isnan x) then x else PInf in
  let e := fabs (fsub final (Fin analytical)) in
  accuracy_analysis ExplicitEuler C_explicit C_implicit analytical
  = Ok (if flt e (Fin (1 # 100)) then
          ExcellentAccuracy final (Fin analytical)
            (fmul (fdiv e (Fin analytical)) (Fin 100))
        else if flt e (Fin (1 # 10)) then
          GoodAccuracy final (Fin analytical)
            (fmul (fdiv e (Fin analytical)) (Fin 100))
        else PoorAccuracy final (Fin analytical)).
Proof.
  intros Hx Hy final e. unfold accuracy_analysis, getitem_last.
  rewrite Hx, Hy. cbn [rbind]. fold final. fold e.
  destruct (flt e (Fin (1 # 100))); [reflexivity|].
  destruct (flt e (Fin (1 # 10))); reflexivity.
Qed.

Lemma accuracy_analysis_implicit
    (C_explicit C_implicit : list np_float) (x y : np_float) (analytical : Q) :
  last C_explicit = Some x ->
  last C_implicit = Some y ->
  accuracy_analysis ImplicitEuler C_explicit C_implicit analytical
  = Ok (ImplicitResults y (Fin analytical)
          (fmul (fdiv (fabs (fsub y (Fin analytical))) (Fin analytical))
             (Fin 100))).
Proof.
  intros Hx Hy. unfold accuracy_analysis, getitem_last.
  now rewrite Hx, Hy.
Qed.

(** The absolute error against a real analytical value is a non-negative
    number or plus infinity, never NaN, once NaN has been replaced. *)
Lemma explicit_error_cases (x : np_float) (analytical : Q) :
  let final := if negb (isnan x) then x else PInf in
  (exists a, x = Fin a /\
     fabs (fsub final (Fin analytical)) = Fin (Qabs (a + - analytical)))
  \/ (x <> NaN /\ fabs (fsub final (Fin analytical)) = PInf)
  \/ (x = NaN /\ fabs (fsub final (Fin analytical)) = PInf).
Proof.
  destruct x as [a| | |]; cbn.
  - left. eauto.
  - right. left. split; [discriminate|reflexivity].
  - right. left. split; [discriminate|reflexivity].
  - right. right. split; reflexivity.
Qed.

(** C5 (as amended).  For the explicit method, with the NaN final value
    replaced by plus infinity and [e] the absolute error against the
    analytical value: the box is the excellent one iff [e < 0.01], the good
    one iff [0.01 <= e < 0.1] and the poor one iff [e >= 0.1]; a NaN final
    value gives an infinite error and the poor box.  For the implicit
    method the box carries no tier. *)
Theorem accuracy_classification
    (C_explicit C_implicit : list np_float) (x y : np_float) (analytical : Q) :
  last C_explicit = Some x ->
  last C_implicit = Some y ->
  let final := if negb (isnan x) then x else PInf in
  let e := fabs (fsub final (Fin analytical)) in
  (exists b : accuracy_box,
     accuracy_analysis ExplicitEuler C_explicit C_implicit analytical = Ok b /\
     (tier_of b = Some Excellent <-> flt e (Fin (1 # 100)) = true) /\
     (tier_of b = Some Good <->
        fle (Fin (1 # 100)) e = true /\ flt e (Fin (1 # 10)) = true) /\
     (tier_of b = Some Poor <-> fle (Fin (1 # 10)) e = true) /\
     (x = NaN -> e = PInf /\ tier_of b = Some Poor)) /\
  (exists b : accuracy_box,
     accuracy_analysis ImplicitEuler C_explicit C_implicit analytical = Ok b /\
     tier_of b = None).
Proof.
  intros Hx Hy final e.
  rewrite (accuracy_analysis_explicit _ _ x y analytical Hx Hy).
  rewrite (accuracy_analysis_implicit _ _ x y analytical Hx Hy).
  fold final. fold e.
  split; [|eexists; split; reflexivity].
  destruct (explicit_error_cases x analytical)
    as [(a & -> & He)|[[Hn He]|[-> He]]]; fold final in He; fold e in He;
    rewrite He.
  - cbn [flt fle].
    destruct (Qlt_bool (Qabs (a + - analytical)) (1 # 100)) eqn:E1;
      [apply Qlt_bool_iff in E1
      |apply Qlt_bool_false in E1;
       destruct (Qlt_bool (Qabs (a + - analytical)) (1 # 10)) eqn:E2;
       [apply Qlt_bool_iff in E2|apply Qlt_bool_false in E2]];
      eexists; (split; [reflexivity|]); cbn [tier_of];
      split_all; intros; reflect_hyps; rewrite ?Qle_bool_iff;
      try discriminate; try reflexivity; lra.
  - eexists. split; [reflexivity|]. cbn.
    split_all; intros; reflect_hyps;
      try discriminate; try reflexivity; congruence.
  - eexists. split; [reflexivity|]. cbn.
    split_all; intros; reflect_hyps;
      try discriminate; try reflexivity; split; reflexivity.
Qed.

Lemma accuracy_classification_witness :
  exists b : accuracy_box,
    accuracy_analysis ExplicitEuler
      [Fin 4; Fin (1267 # 100000)] [Fin 4; Fin (4423 # 100000)]
      (2695 # 100000) = Ok b /\
    tier_of b = Some Good.
Proof.
  destruct (accuracy_classification
              [Fin 4; Fin (1267 # 100000)] [Fin 4; Fin (4423 # 100000)]
              (Fin (1267 # 100000)) (Fin (4423 # 100000)) (2695 # 100000))
    as [(b & Hb & _ & Hgood & _) _]; [reflexivity..|].
  exists b. split; [exact Hb|].
  apply Hgood. split; reflexivity.
Defined.

(** C5 (as stated) fails for the implicit method: with [h = 5] its final
    value 16/49 is more than 0.1 away from the analytical 0.02695, and the
    box shown is not the poor one. *)
Lemma accuracy_classification_counterexample :
  exists (t t' : list Q) (C_explicit C_implicit : list np_float)
         (y : Q) (b : accuracy_box),
    generate_explicit_euler 5 (1 # 2) 4 10 = Ok (t, C_explicit) /\
    generate_implicit_euler 5 (1 # 2) 4 10 = Ok (t', C_implicit) /\
    last C_implicit = Some (Fin y) /\
    1 # 10 <= Qabs (y - (2695 # 100000)) /\
    accuracy_analysis ImplicitEuler C_explicit C_implicit (2695 # 100000)
      = Ok b /\
    tier_of b <> Some Poor.
Proof.
  do 6 eexists.
  split; [vm_compute; reflexivity|].
  split; [vm_compute; reflexivity|].
  split; [reflexivity|].
  split; [vm_compute; discriminate|].
  split; [reflexivity|].
  discriminate.
Qed.

(** ** The relative error *)

Lemma fabs_cases (z : np_float) :
  (exists q, fabs z = Fin q /\ 0 <= q) \/ fabs z = PInf \/ fabs z = NaN.
Proof.
  destruct z as [a| | |]; cbn; eauto using Qabs_nonneg.
Qed.

Lemma fdiv_by_zero (q analytical : Q) :
  0 <= q -> analytical == 0 ->
  fmul (fdiv (Fin q) (Fin analytical)) (Fin 100)
  = if Qeq_bool q 0 then NaN else PInf.
Proof.
  intros Hq Hz. cbn [fdiv]. apply Qeq_bool_iff in Hz. rewrite Hz.
  unfold inf_of_sign. destruct (q ?= 0) eqn:E.
  - apply Qeq_alt in E. apply Qeq_bool_iff in E. now rewrite E.
  - apply Qlt_alt in E. lra.
  - apply Qgt_alt in E.
    destruct (Qeq_bool q 0) eqn:E'; [|reflexivity].
    apply Qeq_bool_iff in E'. lra.
Qed.

Lemma relative_error_by_zero (z : np_float) (analytical : Q) :
  analytical == 0 ->
  fmul (fdiv (fabs z) (Fin analytical)) (Fin 100) = NaN \/
  fmul (fdiv (fabs z) (Fin analytical)) (Fin 100) = PInf.
Proof.
  intros Hz. destruct (fabs_cases z) as [(q & -> & Hq)|[->| ->]].
  - rewrite fdiv_by_zero by assumption. destruct (Qeq_bool q 0); auto.
  - right. cbn [fdiv].
    destruct (Qlt_bool analytical 0) eqn:E; [|reflexivity].
    apply Qlt_bool_iff in E. lra.
  - left. reflexivity.
Qed.

(** C8 (as amended).  The analysis raises nothing, whatever the analytical
    value.  The implicit box always reports [e / analytical * 100]; the
    explicit box reports it in the excellent and good tiers; the explicit
    poor box, shown exactly when [e >= 0.1] and in particular for a NaN
    final value, reports no relative error.  With a zero analytical value a
    reported relative error is not a finite number: it is NaN or an
    infinity. *)
Theorem relative_error_report
    (C_explicit C_implicit : list np_float) (x y : np_float) (analytical : Q) :
  last C_explicit = Some x ->
  last C_implicit = Some y ->
  let final := if negb (isnan x) then x else PInf in
  let e_explicit := fabs (fsub final (Fin analytical)) in
  let e_implicit := fabs (fsub y (Fin analytical)) in
  exists be bi : accuracy_box,
    accuracy_analysis ExplicitEuler C_explicit C_implicit analytical = Ok be /\
    accuracy_analysis ImplicitEuler C_explicit C_implicit analytical = Ok bi /\
    relative_error bi
      = Some (fmul (fdiv e_implicit (Fin analytical)) (Fin 100)) /\
    (tier_of be = Some Excellent \/ tier_of be = Some Good ->
       relative_error be
       = Some (fmul (fdiv e_explicit (Fin analytical)) (Fin 100))) /\
    (tier_of be = Some Poor <-> relative_error be = None) /\
    (relative_error be = None <-> fle (Fin (1 # 10)) e_explicit = true) /\
    (x = NaN -> relative_error be = None) /\
    (analytical == 0 ->
       forall r : np_float,
         relative_error be = Some r \/ relative_error bi = Some r ->
         r = NaN \/ r = PInf \/ r = NInf).
Proof.
  intros Hx Hy final e_explicit e_implicit.
  rewrite (accuracy_analysis_explicit _ _ x y analytical Hx Hy).
  rewrite (accuracy_analysis_implicit _ _ x y analytical Hx Hy).
  fold final. fold e_explicit. fold e_implicit.
  eexists _, _.
  split; [reflexivity|]. split; [reflexivity|]. cbn [relative_error].
  split; [reflexivity|].
  assert (Hpoor : (flt e_explicit (Fin (1 # 100)) = false /\
                   flt e_explicit (Fin (1 # 10)) = false) <->
                  fle (Fin (1 # 10)) e_explicit = true).
  { destruct (explicit_error_cases x analytical)
      as [(a & -> & He)|[[_ He]|[_ He]]];
      fold final in He; fold e_explicit in He; rewrite He; cbn [flt fle];
      [|split; auto..].
    rewrite !Qlt_bool_false, Qle_bool_iff. split; [tauto|]. intros H.
    split; [|exact H]. eapply Qle_trans; [|exact H]. discriminate. }
  assert (Hzero : analytical == 0 ->
            forall r : np_float,
              Some (fmul (fdiv e_explicit (Fin analytical)) (Fin 100))
              = Some r \/
              Some (fmul (fdiv e_implicit (Fin analytical)) (Fin 100))
              = Some r ->
              r = NaN \/ r = PInf \/ r = NInf).
  { intros Hz r [[= <-]|[= <-]].
    - destruct (relative_error_by_zero (fsub final (Fin analytical))
                  analytical Hz) as [E|E];
        fold e_explicit in E; rewrite E; auto.
    - destruct (relative_error_by_zero (fsub y (Fin analytical))
                  analytical Hz) as [E|E];
        fold e_implicit in E; rewrite E; auto. }
  assert (Hnan : x = NaN -> flt e_explicit (Fin (1 # 100)) = false /\
                            flt e_explicit (Fin (1 # 10)) = false)
    by (intros Heq; subst x; split; reflexivity).
  rewrite <- Hpoor.
  destruct (flt e_explicit (Fin (1 # 100))) eqn:E1;
    [|destruct (flt e_explicit (Fin (1 # 10))) eqn:E2];
    cbn [tier_of relative_error].
  - split; [reflexivity|].
    split; [split; discriminate|].
    split; [split; [discriminate|intros [H _]; discriminate]|].
    split; [intros Hn; destruct (Hnan Hn); congruence|].
    exact Hzero.
  - split; [reflexivity|].
    split; [split; discriminate|].
    split; [split; [discriminate|intros [_ H]; discriminate]|].
    split; [intros Hn; destruct (Hnan Hn); congruence|].
    exact Hzero.
  - split; [intros [H|H]; discriminate|].
    split; [split; reflexivity|].
    split; [split; [intros _; split; reflexivity|reflexivity]|].
    split; [reflexivity|].
    intros Hz r [H|H]; [discriminate|]. apply (Hzero Hz). now right.
Qed.

Lemma relative_error_report_witness :
  exists be bi : accuracy_box,
    accuracy_analysis ExplicitEuler [Fin (1 # 2)] [Fin (1 # 4)] 1 = Ok be /\
    accuracy_analysis ImplicitEuler [Fin (1 # 2)] [Fin (1 # 4)] 1 = Ok bi /\
    relative_error bi
      = Some (fmul (fdiv (fabs (fsub (Fin (1 # 4)) (Fin 1))) (Fin 1))
                (Fin 100)) /\
    relative_error be = None.
Proof.
  destruct (relative_error_report [Fin (1 # 2)] [Fin (1 # 4)]
              (Fin (1 # 2)) (Fin (1 # 4)) 1)
    as (be & bi & He & Hi & Hri & _ & _ & Hp & _); [reflexivity..|].
  exists be, bi. split; [exact He|]. split; [exact Hi|].
  split; [exact Hri|].
  apply Hp. reflexivity.
Defined.

(** C8 (as stated) fails on a run of [main]: at the slider's step size 3
    the explicit final value is the number -1/2 and the analytical value
    0.02695 is not zero, yet the box shown is the poor one and no relative
    error is reported. *)
Lemma relative_error_counterexample :
  exists (t t' : list Q) (C_explicit C_implicit : list np_float)
         (f : Q) (b : accuracy_box),
    generate_explicit_euler 3 (1 # 2) 4 10 = Ok (t, C_explicit) /\
    generate_implicit_euler 3 (1 # 2) 4 10 = Ok (t', C_implicit) /\
    last C_explicit = Some (Fin f) /\ f == - (1 # 2) /\
    ~ 2695 # 100000 == 0 /\
    accuracy_analysis ExplicitEuler C_explicit C_implicit (2695 # 100000)
      = Ok b /\
    relative_error b = None.
Proof.
  do 6 eexists.
  split; [vm_compute; reflexivity|].
  split; [vm_compute; reflexivity|].
  split; [reflexivity|].
  split; [reflexivity|].
  split; [discriminate|].
  split; reflexivity.
Qed.

(** * Stability of the explicit integrator *)

Section ExplicitGrowth.
Variables h k : Q.


Lemma Qpower_nat_succ (q : Q) (j : nat) :
  q ^ Z.of_nat (S j) == q * q ^ Z.of_nat j.
Proof.
  rewrite Nat2Z.inj_succ. unfold Z.succ.
  rewrite Qpower_plus' by lia. rewrite Qpower_1_r. ring.
Qed.

Lemma iterate_shift (c : Q) (j : nat) :
  (c + h * (- k * c)) * (1 - h * k) ^ Z.of_nat j
  == c * (1 - h * k) ^ Z.of_nat (S j).
Proof.
  rewrite Qpower_nat_succ. ring.
Qed.

(** NaN appears exactly when one of the iterates [c * (1 - h * k)^j]
    within the [m] steps taken exceeds the threshold. *)
Lemma explicit_tail_nan_iff (m : nat) :
  forall c : Q,
    (exists i : nat, explicit_tail h k c m !! i = Some NaN) <->
    (exists j : nat, (1 <= j <= m)%nat /\
                     1000 < Qabs (c * (1 - h * k) ^ Z.of_nat j)).
Proof.
  induction m as [|m IH]; intros c.
  - split; [intros [i Hi]; discriminate|intros (j & Hj & _); lia].
  - cbn [explicit_tail].
    assert (H1 : Qabs (c * (1 - h * k) ^ Z.of_nat 1)
                 == Qabs (c + h * (- k * c))).
    { apply Qabs_wd. change (Z.of_nat 1) with 1%Z. rewrite Qpower_1_r. ring. }
    destruct (Qlt_bool 1000 (Qabs (c + h * (- k * c)))) eqn:E.
    + apply Qlt_bool_iff in E. split.
      * intros _. exists 1%nat. split; [lia|]. now rewrite H1.
      * intros _. exists 0%nat. reflexivity.
    + apply Qlt_bool_false in E. split.
      * intros [[|i] Hi]; [discriminate|].
        destruct (proj1 (IH _) (ex_intro _ i Hi)) as (j & Hj & Hgt).
        exists (S j). split; [lia|].
        now rewrite <- (Qabs_wd _ _ (iterate_shift c j)).
      * intros (j & Hj & Hgt).
        destruct j as [|[|j]]; [lia| |].
        { exfalso. rewrite H1 in Hgt. lra. }
        destruct (proj2 (IH (c + h * (- k * c)))) as [i Hi].
        { exists (S j). split; [lia|].
          now rewrite (Qabs_wd _ _ (iterate_shift c (S j))). }
        exists (S i). exact Hi.
Qed.

Lemma explicit_nan_iff (m : nat) (c : Q) :
  (exists i : nat, (Fin c :: explicit_tail h k c m) !! i = Some NaN) <->
  (exists j : nat, (1 <= j <= m)%nat /\
                   1000 < Qabs (c * (1 - h * k) ^ Z.of_nat j)).
Proof.
  rewrite <- explicit_tail_nan_iff. split.
  - intros [[|i] Hi]; [discriminate|eauto].
  - intros [i Hi]. exists (S i). exact Hi.
Qed.

Lemma explicit_update_abs (a : Q) :
  Qabs (a + h * (- k * a)) == Qabs a * Qabs (1 - h * k).
Proof.
  rewrite <- Qabs_Qmult. apply Qabs_wd. ring.
Qed.

Lemma explicit_tail_stable (m : nat) :
  Qabs (1 - h * k) <= 1 ->
  forall c : Q, Qabs c <= 1000 ->
    forall i : nat, (Fin c :: explicit_tail h k c m) !! i <> Some NaN.
Proof.
  intros Hr. induction m as [|m IH]; intros c Hc i.
  - destruct i as [|i]; discriminate.
  - cbn [explicit_tail].
    assert (Hc' : Qabs (c + h * (- k * c)) <= 1000).
    { rewrite explicit_update_abs.
      pose proof (Qabs_nonneg c) as H1.
      apply Qle_trans with (Qabs c * 1); [|lra].
      destruct (Qle_lt_or_eq _ _ H1) as [Hlt|Heq].
      - apply Qmult_le_l; assumption.
      - rewrite <- Heq. apply Qle_lteq. right. ring. }
    destruct (Qlt_bool 1000 (Qabs (c + h * (- k * c)))) eqn:E.
    + apply Qlt_bool_iff in E. lra.
    + destruct i as [|i]; [discriminate|]. exact (IH _ Hc' i).
Qed.

End ExplicitGrowth.






(** * Parameter checking *)

(** In the model an integrator raises in three cases, none of which
    involves [k] or [C0]. *)
Lemma integrators_raise_cases (h k C0 t_max : Q) :
  (forall e : exn,
     generate_explicit_euler h k C0 t_max = Raise e <->
     (h == 0 /\ e = ZeroDivisionError) \/
     (~ h == 0 /\ (py_int (t_max / h) + 1 < 0)%Z /\ e = ValueError) \/
     (~ h == 0 /\ (py_int (t_max / h) + 1 = 0)%Z /\ e = IndexError)) /\
  (forall e : exn,
     generate_implicit_euler h k C0 t_max = Raise e <->
     (h == 0 /\ e = ZeroDivisionError) \/
     (~ h == 0 /\ (py_int (t_max / h) + 1 < 0)%Z /\ e = ValueError) \/
     (~ h == 0 /\ (py_int (t_max / h) + 1 = 0)%Z /\ e = IndexError)).
Proof.
  split.
  - intros e. destruct (Qeq_dec h 0) as [Hz|Hnz].
    { rewrite generate_explicit_euler_zero_step by exact Hz.
      split; [intros [= <-]; auto|].
      intros [[_ ->]|[[Hn _]|[Hn _]]]; [reflexivity|contradiction..]. }
    destruct (Z.lt_total (py_int (t_max / h) + 1) 0) as [Hn|[Hn|Hn]].
    + rewrite generate_explicit_euler_negative_count by assumption.
      split; [intros [= <-]; auto|].
      intros [[Hz _]|[(_ & _ & ->)|(_ & Hn' & _)]];
        [contradiction|reflexivity|lia].
    + rewrite generate_explicit_euler_empty by assumption.
      split; [intros [= <-]; auto 6|].
      intros [[Hz _]|[(_ & Hn' & _)|(_ & _ & ->)]];
        [contradiction|lia|reflexivity].
    + destruct (generate_explicit_euler_eq h k C0 t_max Hnz) as (t & _ & E);
        [lia|].
      rewrite E. split; [discriminate|].
      intros [[Hz _]|[(_ & Hn' & _)|(_ & Hn' & _)]]; [contradiction|lia..].
  - intros e. destruct (Qeq_dec h 0) as [Hz|Hnz].
    { rewrite generate_implicit_euler_zero_step by exact Hz.
      split; [intros [= <-]; auto|].
      intros [[_ ->]|[[Hn _]|[Hn _]]]; [reflexivity|contradiction..]. }
    destruct (Z.lt_total (py_int (t_max / h) + 1) 0) as [Hn|[Hn|Hn]].
    + rewrite generate_implicit_euler_negative_count by assumption.
      split; [intros [= <-]; auto|].
      intros [[Hz _]|[(_ & _ & ->)|(_ & Hn' & _)]];
        [contradiction|reflexivity|lia].
    + rewrite generate_implicit_euler_empty by assumption.
      split; [intros [= <-]; auto 6|].
      intros [[Hz _]|[(_ & Hn' & _)|(_ & _ & ->)]];
        [contradiction|lia|reflexivity].
    + destruct (generate_implicit_euler_eq h k C0 t_max Hnz) as (t & _ & E);
        [lia|].
      rewrite E. split; [discriminate|].
      intros [[Hz _]|[(_ & Hn' & _)|(_ & Hn' & _)]]; [contradiction|lia..].
Qed.

(** C9 (as amended).  The integrators check no parameter.  Whether a call
    raises, and with which exception, does not depend on [k] or [C0]: a
    decay rate is accepted whenever the same [h] and [t_max] are accepted
    with any other one.  What raises are faults of the computation itself:
    [h = 0] at the division [t_max / h], a negative sample count
    [int(t_max / h) + 1] at [linspace], and a zero sample count at the
    store [C[0] = C0]. *)
Theorem integrators_do_not_validate (h k C0 t_max : Q) :
  (forall (k' C0' : Q) (e : exn),
     generate_explicit_euler h k C0 t_max = Raise e <->
     generate_explicit_euler h k' C0' t_max = Raise e) /\
  (forall (k' C0' : Q) (e : exn),
     generate_implicit_euler h k C0 t_max = Raise e <->
     generate_implicit_euler h k' C0' t_max = Raise e) /\
  (forall k' C0' : Q,
     (exists r, generate_explicit_euler h k C0 t_max = Ok r) ->
     (exists r, generate_explicit_euler h k' C0' t_max = Ok r) /\
     (exists r, generate_implicit_euler h k' C0' t_max = Ok r)) /\
  (h == 0 ->
     generate_explicit_euler h k C0 t_max = Raise ZeroDivisionError /\
     generate_implicit_euler h k C0 t_max = Raise ZeroDivisionError) /\
  (forall q : Q,
     py_div t_max h = Ok q -> (py_int q + 1 < 0)%Z ->
     generate_explicit_euler h k C0 t_max = Raise ValueError /\
     generate_implicit_euler h k C0 t_max = Raise ValueError) /\
  (forall q : Q,
     py_div t_max h = Ok q -> (py_int q + 1 = 0)%Z ->
     generate_explicit_euler h k C0 t_max = Raise IndexError /\
     generate_implicit_euler h k C0 t_max = Raise IndexError).
Proof.
  assert (Hq : forall q : Q, py_div t_max h = Ok q ->
                             ~ h == 0 /\ q = t_max / h).
  { intros q Hq. destruct (Qeq_dec h 0) as [Hz|Hnz].
    - rewrite py_div_zero in Hq by exact Hz. discriminate.
    - rewrite py_div_ok in Hq by exact Hnz. injection Hq as <-. auto. }
  split; [|split; [|split; [|split; [|split]]]].
  - intros k' C0' e.
    rewrite (proj1 (integrators_raise_cases h k C0 t_max) e).
    rewrite (proj1 (integrators_raise_cases h k' C0' t_max) e). tauto.
  - intros k' C0' e.
    rewrite (proj2 (integrators_raise_cases h k C0 t_max) e).
    rewrite (proj2 (integrators_raise_cases h k' C0' t_max) e). tauto.
  - intros k' C0' [[t C] E].
    destruct (generate_explicit_euler_inv h k C0 t_max t C E)
      as (Hnz & Hm & _).
    destruct (generate_explicit_euler_eq h k' C0' t_max Hnz Hm)
      as (t1 & _ & E1).
    destruct (generate_implicit_euler_eq h k' C0' t_max Hnz Hm)
      as (t2 & _ & E2).
    eauto.
  - intros Hz. split;
      [now apply generate_explicit_euler_zero_step
      |now apply generate_implicit_euler_zero_step].
  - intros q Hdiv Hn. destruct (Hq q Hdiv) as [Hnz ->]. split;
      [now apply generate_explicit_euler_negative_count
      |now apply generate_implicit_euler_negative_count].
  - intros q Hdiv Hn. destruct (Hq q Hdiv) as [Hnz ->]. split;
      [now apply generate_explicit_euler_empty
      |now apply generate_implicit_euler_empty].
Qed.

(** C9 (as stated) fails: a decay rate [k = -1/2] is not rejected; both
    integrators run on it and return a trajectory. *)
Lemma invalid_parameters_counterexample :
  - (1 # 2) <= 0 /\
  generate_explicit_euler 1 (- (1 # 2)) 1 2
    = Ok ([0 * ((2 - 0) / inject_Z 2) + 0; 1 * ((2 - 0) / inject_Z 2) + 0; 2],
          [Fin 1; Fin (1 + 1 * (- - (1 # 2) * 1));
           Fin (1 + 1 * (- - (1 # 2) * 1)
                + 1 * (- - (1 # 2) * (1 + 1 * (- - (1 # 2) * 1))))]) /\
  exists r, generate_implicit_euler 1 (- (1 # 2)) 1 2 = Ok r.
Proof.
  split; [discriminate|]. split; [vm_compute; reflexivity|].
  eexists. vm_compute. reflexivity.
Qed.

(** * Further properties of the integrators *)

Lemma generate_implicit_euler_inv
    (h k C0 t_max : Q) (t : list Q) (C : list np_float) :
  generate_implicit_euler h k C0 t_max = Ok (t, C) ->
  ~ h == 0 /\ (0 <= py_int (t_max / h))%Z /\
  linspace 0 t_max (py_int (t_max / h) + 1) = Ok t /\
  C = Fin C0 :: implicit_tail h k (Fin C0) (Z.to_nat (py_int (t_max / h))).
Proof.
  intros H.
  destruct (Qeq_dec h 0) as [Hz|Hnz].
  { rewrite generate_implicit_euler_zero_step in H by exact Hz.
    discriminate. }
  destruct (Z.lt_total (py_int (t_max / h) + 1) 0) as [Hn|[Hn|Hn]].
  { rewrite generate_implicit_euler_negative_count in H by assumption.
    discriminate. }
  { rewrite generate_implicit_euler_empty in H by assumption.
    discriminate. }
  destruct (generate_implicit_euler_eq h k C0 t_max Hnz) as (t' & Ht & E);
    [lia|].
  rewrite E in H. injection H as <- <-.
  repeat split; [exact Hnz|lia|exact Ht].
Qed.

Lemma generate_explicit_euler_grid
    (h k C0 t_max : Q) (t : list Q) (C : list np_float) :
  generate_explicit_euler h k C0 t_max = Ok (t, C) ->
  linspace 0 t_max (py_int (t_max / h) + 1) = Ok t.
Proof.
  intros H.
  destruct (generate_explicit_euler_inv h k C0 t_max t C H) as (Hnz & Hm & _).
  destruct (generate_explicit_euler_eq h k C0 t_max Hnz Hm) as (t' & Ht & E).
  rewrite E in H. now injection H as <- _.
Qed.

(** The two integrators share the sample count and the time grid, and fail
    together. *)
Lemma integrators_cases (h k C0 t_max : Q) :
  (exists e : exn,
     generate_explicit_euler h k C0 t_max = Raise e /\
     generate_implicit_euler h k C0 t_max = Raise e) \/
  (exists t : list Q,
     length t = S (Z.to_nat (py_int (t_max / h))) /\
     generate_explicit_euler h k C0 t_max
     = Ok (t, Fin C0 :: explicit_tail h k C0 (Z.to_nat (py_int (t_max / h)))) /\
     generate_implicit_euler h k C0 t_max
     = Ok (t, Fin C0 ::
              implicit_tail h k (Fin C0) (Z.to_nat (py_int (t_max / h))))).
Proof.
  destruct (Qeq_dec h 0) as [Hz|Hnz].
  { left. exists ZeroDivisionError.
    now rewrite generate_explicit_euler_zero_step,
      generate_implicit_euler_zero_step. }
  destruct (Z.lt_total (py_int (t_max / h) + 1) 0) as [Hn|[Hn|Hn]].
  - left. exists ValueError.
    now rewrite generate_explicit_euler_negative_count,
      generate_implicit_euler_negative_count.
  - left. exists IndexError.
    now rewrite generate_explicit_euler_empty, generate_implicit_euler_empty.
  - right.
    destruct (generate_explicit_euler_eq h k C0 t_max Hnz) as (t & Ht & E);
      [lia|].
    destruct (generate_implicit_euler_eq h k C0 t_max Hnz) as (t' & Ht' & E');
      [lia|].
    rewrite Ht in Ht'. injection Ht' as <-.
    exists t. split; [|split; assumption].
    rewrite (linspace_length _ _ _ _ Ht). lia.
Qed.

(** X3.  On the same parameters the two integrators behave alike: when one
    returns a trajectory the other returns one with the same time points
    and as many values as there are time points, and when one raises the
    other raises the same exception. *)
Theorem integrators_same_shape (h k C0 t_max : Q) :
  (forall (t : list Q) (C : list np_float),
     generate_explicit_euler h k C0 t_max = Ok (t, C) ->
     exists C' : list np_float,
       generate_implicit_euler h k C0 t_max = Ok (t, C') /\
       length C' = length C /\ length C = length t) /\
  (forall (t : list Q) (C' : list np_float),
     generate_implicit_euler h k C0 t_max = Ok (t, C') ->
     exists C : list np_float,
       generate_explicit_euler h k C0 t_max = Ok (t, C) /\
       length C = length C' /\ length C' = length t) /\
  (forall e : exn,
     generate_explicit_euler h k C0 t_max = Raise e <->
     generate_implicit_euler h k C0 t_max = Raise e).
Proof.
  destruct (integrators_cases h k C0 t_max)
    as [(e & -> & ->)|(t & Hlen & -> & ->)].
  - split; [discriminate|]. split; [discriminate|]. tauto.
  - split; [|split].
    + intros t' C [= <- <-]. eexists. split; [reflexivity|].
      cbn [length].
      rewrite length_explicit_tail, length_implicit_tail, Hlen. auto.
    + intros t' C [= <- <-]. eexists. split; [reflexivity|].
      cbn [length].
      rewrite length_explicit_tail, length_implicit_tail, Hlen. auto.
    + intros e. split; discriminate.
Qed.

(** X4.  The time points of a returned trajectory are strictly increasing
    when the horizon is positive. *)
Theorem time_grid_increasing
    (h k C0 t_max : Q) (t : list Q) (C : list np_float) :
  generate_explicit_euler h k C0 t_max = Ok (t, C) ->
  0 < t_max ->
  forall (i j : nat) (ti tj : Q),
    (i < j)%nat -> t !! i = Some ti -> t !! j = Some tj -> ti < tj.
Proof.
  intros E Ht i j ti tj Hij Hi Hj.
  pose proof (generate_explicit_euler_grid h k C0 t_max t C E) as Hlin.
  destruct (generate_explicit_euler_inv h k C0 t_max t C E) as (_ & Hm & _).
  set (m := py_int (t_max / h)) in *.
  pose proof (linspace_length _ _ _ _ Hlin) as Hlen.
  pose proof (lookup_lt_Some _ _ _ Hi) as Hi'.
  pose proof (lookup_lt_Some _ _ _ Hj) as Hj'.
  assert (Hpos : (1 < m + 1)%Z) by lia.
  destruct (linspace_lookup 0 t_max (m + 1) t i Hpos Hlin) as (ti' & H1 & E1);
    [lia|].
  destruct (linspace_lookup 0 t_max (m + 1) t j Hpos Hlin) as (tj' & H2 & E2);
    [lia|].
  rewrite Hi in H1. injection H1 as <-.
  rewrite Hj in H2. injection H2 as <-.
  rewrite E1, E2.
  assert (Hstep : 0 < (t_max - 0) / inject_Z (m + 1 - 1)).
  { apply Qlt_shift_div_l; [|lra].
    change 0 with (inject_Z 0). rewrite <- Zlt_Qlt. lia. }
  assert (Hinj : inject_Z (Z.of_nat i) < inject_Z (Z.of_nat j))
    by (rewrite <- Zlt_Qlt; lia).
  pose proof (Qmult_lt_compat_r _ _ _ Hstep Hinj) as Hlt.
  lra.
Qed.

Lemma time_grid_increasing_witness :
  0 < 10 # 3.
Proof.
  apply (time_grid_increasing 3 (1 # 2) 4 10
           [0 # 3; 10 # 3; 20 # 3; 10]
           [Fin 4; Fin (-4 # 2); Fin (8 # 8); Fin (-64 # 128)]
           ltac:(vm_compute; reflexivity) ltac:(reflexivity)
           0%nat 1%nat (0 # 3) (10 # 3));
    [lia|reflexivity|reflexivity].
Defined.

Section Shapes.
Variables h k : Q.

(** With a zero divisor the quotient of every value is the same infinity
    or NaN as the quotient of the first one. *)
Lemma implicit_tail_zero_divisor (m : nat) :
  1 + h * k == 0 ->
  forall (x : np_float) (i : nat) (y : np_float),
    implicit_tail h k x m !! i = Some y ->
    y = fdiv x (Fin (1 + h * k)).
Proof.
  intros Hz.
  assert (Hb : Qeq_bool (1 + h * k) 0 = true) by now apply Qeq_bool_iff.
  assert (Hl : Qlt_bool (1 + h * k) 0 = false).
  { apply Qlt_bool_false. rewrite Hz. apply Qle_refl. }
  assert (Hidem : forall x, fdiv (fdiv x (Fin (1 + h * k))) (Fin (1 + h * k))
                            = fdiv x (Fin (1 + h * k))).
  { intros [a| | |]; cbn [fdiv]; rewrite ?Hb, ?Hl;
      [unfold inf_of_sign; destruct (a ?= 0)|..];
      cbn [fdiv]; now rewrite ?Hl. }
  induction m as [|m IH]; intros x i y Hy; [discriminate|].
  cbn [implicit_tail] in Hy. destruct i as [|i].
  - now injection Hy as <-.
  - rewrite (IH _ i y Hy). apply Hidem.
Qed.

End Shapes.

(** X9.  The implicit integrator never raises on a zero divisor: when
    [1 + h k = 0] every value after the first is plus infinity for a
    positive [C0], minus infinity for a negative one and NaN for zero. *)
Theorem implicit_euler_zero_divisor
    (h k C0 t_max : Q) (t : list Q) (C : list np_float) :
  generate_implicit_euler h k C0 t_max = Ok (t, C) ->
  1 + h * k == 0 ->
  forall (i : nat) (x : np_float),
    (1 <= i)%nat -> C !! i = Some x ->
    (0 < C0 -> x = PInf) /\ (C0 < 0 -> x = NInf) /\ (C0 == 0 -> x = NaN).
Proof.
  intros E Hz.
  destruct (generate_implicit_euler_inv h k C0 t_max t C E)
    as (_ & _ & _ & ->).
  intros [|i] x Hi Hx; [lia|].
  rewrite (implicit_tail_zero_divisor h k _ Hz _ _ _ Hx). cbn [fdiv].
  apply Qeq_bool_iff in Hz. rewrite Hz. unfold inf_of_sign.
  destruct (C0 ?= 0) eqn:Ec.
  - apply Qeq_alt in Ec. repeat split; intros; try reflexivity; lra.
  - apply Qlt_alt in Ec. repeat split; intros; try reflexivity; lra.
  - apply Qgt_alt in Ec. repeat split; intros; try reflexivity; lra.
Qed.

Lemma implicit_euler_zero_divisor_witness :
  exists (t : list Q) (C : list np_float) (x : np_float),
    generate_implicit_euler 1 (- (1)) 4 2 = Ok (t, C) /\
    C !! 2%nat = Some x /\ x = PInf.
Proof.
  do 3 eexists. split; [vm_compute; reflexivity|].
  split; [reflexivity|].
  apply (implicit_euler_zero_divisor 1 (- (1)) 4 2
           [0 # 2; 2 # 2; 2] [Fin 4; PInf; PInf]
           ltac:(vm_compute; reflexivity) ltac:(reflexivity)
           2%nat PInf ltac:(lia) ltac:(reflexivity)).
  reflexivity.
Defined.

(** * The plot limits *)

Lemma fle_refl (x : np_float) : isnan x = false -> fle x x = true.
Proof.
  destruct x as [a| | |]; intros H; try reflexivity; try discriminate.
  apply Qle_bool_iff, Qle_refl.
Qed.

Lemma fle_trans (x y z : np_float) :
  fle x y = true -> fle y z = true -> fle x z = true.
Proof.
  destruct x as [a| | |], y as [b| | |], z as [c| | |]; cbn [fle];
    intros H1 H2; try reflexivity; try discriminate.
  apply Qle_bool_iff in H1. apply Qle_bool_iff in H2.
  apply Qle_bool_iff. eapply Qle_trans; eassumption.
Qed.

Lemma flt_fle (x y : np_float) : flt x y = true -> fle x y = true.
Proof.
  destruct x as [a| | |], y as [b| | |]; cbn [flt fle];
    intros H; try reflexivity; try discriminate.
  apply Qlt_bool_iff in H. apply Qle_bool_iff. now apply Qlt_le_weak.
Qed.

Lemma not_flt_fle (x y : np_float) :
  isnan x = false -> isnan y = false -> flt y x = false -> fle x y = true.
Proof.
  destruct x as [a| | |], y as [b| | |]; cbn [flt fle isnan];
    intros Hx Hy H; try reflexivity; try discriminate.
  apply Qlt_bool_false in H. now apply Qle_bool_iff.
Qed.

Lemma fmin_spec (x y : np_float) :
  (isnan x = false -> fle (fmin x y) x = true) /\
  (isnan y = false -> fle (fmin x y) y = true) /\
  (isnan (fmin x y) = true -> isnan x = true /\ isnan y = true).
Proof.
  destruct (isnan x) eqn:Hx; [destruct x; try discriminate; cbn [fmin]|].
  { split; [discriminate|]. split; [apply fle_refl|auto]. }
  destruct (isnan y) eqn:Hy; [destruct y; try discriminate|].
  { assert (E : fmin x NaN = x) by (destruct x; reflexivity).
    rewrite E, Hx. split; [intros _; now apply fle_refl|].
    split; discriminate. }
  assert (E : fmin x y = if flt y x then y else x)
    by (destruct x, y; try discriminate; reflexivity).
  rewrite E. destruct (flt y x) eqn:Hlt.
  - split; [intros _; now apply flt_fle|].
    split; [intros _; now apply fle_refl|]. rewrite Hy. discriminate.
  - split; [intros _; now apply fle_refl|].
    split; [intros _; now apply not_flt_fle|]. rewrite Hx. discriminate.
Qed.

Lemma fmax_spec (x y : np_float) :
  (isnan x = false -> fle x (fmax x y) = true) /\
  (isnan y = false -> fle y (fmax x y) = true) /\
  (isnan (fmax x y) = true -> isnan x = true /\ isnan y = true).
Proof.
  destruct (isnan x) eqn:Hx; [destruct x; try discriminate; cbn [fmax]|].
  { split; [discriminate|]. split; [apply fle_refl|auto]. }
  destruct (isnan y) eqn:Hy; [destruct y; try discriminate|].
  { assert (E : fmax x NaN = x) by (destruct x; reflexivity).
    rewrite E, Hx. split; [intros _; now apply fle_refl|].
    split; discriminate. }
  assert (E : fmax x y = if flt x y then y else x)
    by (destruct x, y; try discriminate; reflexivity).
  rewrite E. destruct (flt x y) eqn:Hlt.
  - split; [intros _; now apply flt_fle|].
    split; [intros _; now apply fle_refl|]. rewrite Hy. discriminate.
  - split; [intros _; now apply fle_refl|].
    split; [intros _; now apply not_flt_fle|]. rewrite Hx. discriminate.
Qed.

(** The reduction by [fmin] is below every non-NaN element it has seen and
    is NaN only when all of them are. *)
Lemma foldl_fmin_spec (xs : list np_float) :
  forall acc : np_float,
    (forall z : np_float,
       isnan z = false -> z = acc \/ z ∈ xs ->
       fle (foldl fmin acc xs) z = true) /\
    (isnan (foldl fmin acc xs) = true ->
     isnan acc = true /\ forallb isnan xs = true).
Proof.
  induction xs as [|x xs IH]; intros acc; cbn [foldl].
  - split.
    + intros z Hz [->|Hin]; [now apply fle_refl|]. now apply elem_of_nil in Hin.
    + auto.
  - destruct (IH (fmin acc x)) as [IH1 IH2].
    destruct (fmin_spec acc x) as (Hl & Hr & Hn).
    split.
    + intros z Hz [->|Hin].
      * destruct (isnan (fmin acc x)) eqn:E.
        { destruct (Hn eq_refl) as [Hacc _]. congruence. }
        eapply fle_trans; [apply IH1; [exact E|now left]|now apply Hl].
      * apply elem_of_cons in Hin as [->|Hin]; [|apply IH1; auto].
        destruct (isnan (fmin acc x)) eqn:E.
        { destruct (Hn eq_refl) as [_ Hx]. congruence. }
        eapply fle_trans; [apply IH1; [exact E|now left]|now apply Hr].
    + intros H. destruct (IH2 H) as [H1 H2].
      destruct (Hn H1) as [Ha Hx]. cbn [forallb]. now rewrite Hx, H2.
Qed.

Lemma foldl_fmax_spec (xs : list np_float) :
  forall acc : np_float,
    (forall z : np_float,
       isnan z = false -> z = acc \/ z ∈ xs ->
       fle z (foldl fmax acc xs) = true) /\
    (isnan (foldl fmax acc xs) = true ->
     isnan acc = true /\ forallb isnan xs = true).
Proof.
  induction xs as [|x xs IH]; intros acc; cbn [foldl].
  - split.
    + intros z Hz [->|Hin]; [now apply fle_refl|]. now apply elem_of_nil in Hin.
    + auto.
  - destruct (IH (fmax acc x)) as [IH1 IH2].
    destruct (fmax_spec acc x) as (Hl & Hr & Hn).
    split.
    + intros z Hz [->|Hin].
      * destruct (isnan (fmax acc x)) eqn:E.
        { destruct (Hn eq_refl) as [Hacc _]. congruence. }
        eapply fle_trans; [now apply Hl|apply IH1; [exact E|now left]].
      * apply elem_of_cons in Hin as [->|Hin]; [|apply IH1; auto].
        destruct (isnan (fmax acc x)) eqn:E.
        { destruct (Hn eq_refl) as [_ Hx]. congruence. }
        eapply fle_trans; [now apply Hr|apply IH1; [exact E|now left]].
    + intros H. destruct (IH2 H) as [H1 H2].
      destruct (Hn H1) as [Ha Hx]. cbn [forallb]. now rewrite Hx, H2.
Qed.

(** On an array that is not all NaN the two reductions succeed, return a
    value that is not NaN, and bound every non-NaN element. *)
Lemma nanmin_nanmax_spec (a : list np_float) :
  all_isnan a = false ->
  exists lo hi : np_float,
    nanmin a = Ok lo /\ nanmax a = Ok hi /\
    isnan lo = false /\ isnan hi = false /\
    forall z : np_float,
      z ∈ a -> isnan z = false -> fle lo z = true /\ fle z hi = true.
Proof.
  destruct a as [|x xs]; [discriminate|]. intros Hall.
  destruct (foldl_fmin_spec xs x) as [Hmin Hminn].
  destruct (foldl_fmax_spec xs x) as [Hmax Hmaxn].
  exists (foldl fmin x xs), (foldl fmax x xs).
  split; [reflexivity|]. split; [reflexivity|].
  unfold all_isnan in Hall. cbn [forallb] in Hall.
  split; [|split].
  - destruct (isnan (foldl fmin x xs)) eqn:E; [|reflexivity].
    destruct (Hminn eq_refl) as [H1 H2]. now rewrite H1, H2 in Hall.
  - destruct (isnan (foldl fmax x xs)) eqn:E; [|reflexivity].
    destruct (Hmaxn eq_refl) as [H1 H2]. now rewrite H1, H2 in Hall.
  - intros z Hin Hz. apply elem_of_cons in Hin.
    split; [apply Hmin|apply Hmax]; auto.
Qed.

Lemma all_isnan_false (a : list np_float) (z : np_float) :
  z ∈ a -> isnan z = false -> all_isnan a = false.
Proof.
  intros Hin Hz. unfold all_isnan.
  induction Hin as [z xs|z x xs Hin IH]; cbn [forallb].
  - now rewrite Hz.
  - rewrite (IH Hz). apply andb_false_r.
Qed.

Lemma fmin_choice (x y : np_float) : fmin x y = x \/ fmin x y = y.
Proof.
  destruct x, y; cbn [fmin]; auto; destruct (flt _ _); auto.
Qed.

Lemma fmax_choice (x y : np_float) : fmax x y = x \/ fmax x y = y.
Proof.
  destruct x, y; cbn [fmax]; auto; destruct (flt _ _); auto.
Qed.

Lemma foldl_choice (f : np_float -> np_float -> np_float)
    (xs : list np_float) :
  (forall x y, f x y = x \/ f x y = y) ->
  forall acc : np_float, foldl f acc xs = acc \/ foldl f acc xs ∈ xs.
Proof.
  intros Hf. induction xs as [|x xs IH]; intros acc; cbn [foldl]; [auto|].
  destruct (IH (f acc x)) as [E|Hin].
  - rewrite E. destruct (Hf acc x) as [-> | ->]; [auto|].
    right. apply elem_of_cons. auto.
  - right. apply elem_of_cons. auto.
Qed.

(** The lower limit is a number between -10 and 0, below every value the
    minimum is below, as long as that value is at least -10. *)
Lemma clamp_low (v : np_float) :
  exists lo : Q,
    py_max (Fin (- (10))) (py_min (Fin 0) v) = Fin lo /\
    - (10) <= lo /\ lo <= 0 /\
    forall z : Q, fle v (Fin z) = true -> - (10) <= z -> lo <= z.
Proof.
  destruct v as [q| | |]; unfold py_max, py_min; cbn [flt fle].
  - destruct (Qlt_bool q 0) eqn:E1; cbn [flt];
      [destruct (Qlt_bool (- (10)) q) eqn:E2|];
      eexists; (split; [reflexivity|]);
      rewrite ?Qlt_bool_iff, ?Qlt_bool_false in *;
      (split; [lra|]); (split; [lra|]);
      intros z Hz; apply Qle_bool_iff in Hz; lra.
  - eexists. split; [reflexivity|]. split; [discriminate|].
    split; [apply Qle_refl|discriminate].
  - eexists. split; [reflexivity|]. split; [apply Qle_refl|].
    split; [discriminate|]. auto.
  - eexists. split; [reflexivity|]. split; [discriminate|].
    split; [apply Qle_refl|discriminate].
Qed.

Lemma clamp_high (C0 : Q) (v : np_float) :
  exists hi : Q,
    py_min (Fin 10) (py_max (Fin C0) v) = Fin hi /\
    hi <= 10 /\ (C0 <= 10 -> C0 <= hi) /\ (10 <= C0 -> hi == 10) /\
    forall z : Q, fle (Fin z) v = true -> z <= 10 -> z <= hi.
Proof.
  destruct v as [q| | |]; unfold py_max, py_min; cbn [flt fle].
  - destruct (Qlt_bool C0 q) eqn:E1; cbn [flt];
      [destruct (Qlt_bool q 10) eqn:E2|destruct (Qlt_bool C0 10) eqn:E2];
      eexists; (split; [reflexivity|]);
      rewrite ?Qlt_bool_iff, ?Qlt_bool_false in *;
      (split; [lra|]); (split; [intros; lra|]); (split; [intros; lra|]);
      intros z Hz; apply Qle_bool_iff in Hz; lra.
  - eexists. split; [reflexivity|]. split; [apply Qle_refl|].
    split; [auto|]. split; [reflexivity|]. auto.
  - destruct (Qlt_bool C0 10) eqn:E2;
      eexists; (split; [reflexivity|]);
      rewrite ?Qlt_bool_iff, ?Qlt_bool_false in *;
      (split; [lra|]); (split; [intros; lra|]); (split; [intros; lra|]);
      discriminate.
  - destruct (Qlt_bool C0 10) eqn:E2;
      eexists; (split; [reflexivity|]);
      rewrite ?Qlt_bool_iff, ?Qlt_bool_false in *;
      (split; [lra|]); (split; [intros; lra|]); (split; [intros; lra|]);
      discriminate.
Qed.

(** The limits in terms of the reductions, whenever they are defined. *)
Lemma y_limits_eq (C0 : Q) (C : list np_float) :
  exists lo hi : np_float,
    y_limits C0 C
    = Ok (py_max (Fin (- (10))) (py_min (Fin 0) lo),
          py_min (Fin 10) (py_max (Fin C0) hi)) /\
    (all_isnan C = false ->
     nanmin C = Ok lo /\ nanmax C = Ok hi /\
     forall z : np_float,
       z ∈ C -> isnan z = false -> fle lo z = true /\ fle z hi = true).
Proof.
  unfold y_limits. destruct (all_isnan C) eqn:Hall; cbn [negb].
  - exists (Fin 0), (Fin C0). split; [reflexivity|discriminate].
  - destruct (nanmin_nanmax_spec C Hall) as (lo & hi & -> & -> & _ & _ & Hb).
    exists lo, hi. split; [reflexivity|]. auto.
Qed.

(** X10.  The plot limits are always defined, for every array and every
    [C0]: the lower one is a number in [-10, 0], the upper one a number at
    most 10 and at least [min(10, C0)], so for a positive [C0] the lower
    limit is strictly below the upper one. *)
Theorem y_limits_bounded (C0 : Q) (C : list np_float) :
  exists lo hi : Q,
    y_limits C0 C = Ok (Fin lo, Fin hi) /\
    - (10) <= lo /\ lo <= 0 /\ hi <= 10 /\
    (C0 <= 10 -> C0 <= hi) /\ (10 <= C0 -> hi == 10) /\
    (0 < C0 -> lo < hi).
Proof.
  destruct (y_limits_eq C0 C) as (x & y & -> & _).
  destruct (clamp_low x) as (lo & -> & H1 & H2 & _).
  destruct (clamp_high C0 y) as (hi & -> & H3 & H4 & H5 & _).
  exists lo, hi. split; [reflexivity|].
  repeat (split; [assumption|]).
  intros Hc. destruct (Qlt_le_dec C0 10) as [Hlt|Hge].
  - assert (C0 <= hi) by (apply H4; lra). lra.
  - rewrite (H5 Hge). lra.
Qed.

(** X11.  Every numeric value of the array that lies between -10 and 10
    is inside the plot limits: the window is cut only at -10 and 10. *)
Theorem y_limits_contain
    (C0 : Q) (C : list np_float) (i : nat) (v : Q) :
  C !! i = Some (Fin v) ->
  - (10) <= v -> v <= 10 ->
  exists lo hi : Q,
    y_limits C0 C = Ok (Fin lo, Fin hi) /\ lo <= v /\ v <= hi.
Proof.
  intros Hv Hlo Hhi.
  assert (Hin : Fin v ∈ C) by (eapply list_elem_of_lookup_2; exact Hv).
  assert (Hall : all_isnan C = false)
    by (eapply all_isnan_false; [exact Hin|reflexivity]).
  destruct (y_limits_eq C0 C) as (x & y & -> & Hb).
  destruct (Hb Hall) as (_ & _ & Hbound).
  destruct (Hbound (Fin v) Hin eq_refl) as [Hx Hy].
  destruct (clamp_low x) as (lo & -> & _ & _ & Hl).
  destruct (clamp_high C0 y) as (hi & -> & _ & _ & _ & Hh).
  exists lo, hi. split; [reflexivity|]. split; auto.
Qed.

Lemma y_limits_contain_witness :
  exists lo hi : Q,
    y_limits 4 [Fin 4; Fin (- (5)); Fin (25 # 4)] = Ok (Fin lo, Fin hi) /\
    lo <= - (5) /\ - (5) <= hi.
Proof.
  apply (y_limits_contain 4 [Fin 4; Fin (- (5)); Fin (25 # 4)] 1%nat (- (5)));
    [reflexivity|discriminate|discriminate].
Defined.

(** X12.  On a trajectory of the explicit integrator the all-NaN fallback
    of the limits is never taken: the array is not all NaN, its minimum and
    maximum over the non-NaN values are numbers of the array, [C0] lies
    between them, and so does every other numeric value. *)
Theorem y_limits_fallback_unused
    (h k C0 t_max : Q) (t : list Q) (C : list np_float) :
  generate_explicit_euler h k C0 t_max = Ok (t, C) ->
  all_isnan C = false /\
  exists lo hi : Q,
    nanmin C = Ok (Fin lo) /\ nanmax C = Ok (Fin hi) /\
    Fin lo ∈ C /\ Fin hi ∈ C /\
    lo <= C0 /\ C0 <= hi /\
    forall (i : nat) (a : Q),
      C !! i = Some (Fin a) -> lo <= a /\ a <= hi.
Proof.
  intros E.
  destruct (generate_explicit_euler_inv h k C0 t_max t C E) as (_ & _ & ->).
  set (tl := explicit_tail h k C0 (Z.to_nat (py_int (t_max / h)))).
  assert (Hall : all_isnan (Fin C0 :: tl) = false) by reflexivity.
  split; [exact Hall|].
  destruct (nanmin_nanmax_spec _ Hall)
    as (x & y & Hmin & Hmax & Hx & Hy & Hb).
  assert (Hxin : x ∈ Fin C0 :: tl).
  { injection Hmin as <-.
    destruct (foldl_choice fmin tl fmin_choice (Fin C0)) as [-> |Hin];
      apply elem_of_cons; auto. }
  assert (Hyin : y ∈ Fin C0 :: tl).
  { injection Hmax as <-.
    destruct (foldl_choice fmax tl fmax_choice (Fin C0)) as [-> |Hin];
      apply elem_of_cons; auto. }
  assert (Hcell : forall z, z ∈ Fin C0 :: tl -> isnan z = false ->
                            exists a, z = Fin a).
  { intros z Hin Hz. apply list_elem_of_lookup_1 in Hin as [j Hj].
    destruct (explicit_tail_cells h k _ _ _ _ Hj) as [-> |[a ->]];
      [discriminate|eauto]. }
  destruct (Hcell x Hxin Hx) as [lo ->].
  destruct (Hcell y Hyin Hy) as [hi ->].
  exists lo, hi. split; [exact Hmin|]. split; [exact Hmax|].
  split; [exact Hxin|]. split; [exact Hyin|].
  assert (Hq : forall a, Fin a ∈ Fin C0 :: tl -> lo <= a /\ a <= hi).
  { intros a Hin. destruct (Hb (Fin a) Hin eq_refl) as [H1 H2].
    cbn [fle] in H1, H2. now rewrite !Qle_bool_iff in *. }
  split; [apply Hq, elem_of_cons; auto|].
  split; [apply Hq, elem_of_cons; auto|].
  intros i a Ha. apply Hq. eapply list_elem_of_lookup_2. exact Ha.
Qed.

Lemma y_limits_fallback_unused_witness :
  all_isnan [Fin 2000; NaN; NaN] = false /\
  exists lo hi : Q,
    nanmin [Fin 2000; NaN; NaN] = Ok (Fin lo) /\
    nanmax [Fin 2000; NaN; NaN] = Ok (Fin hi) /\
    Fin lo ∈ [Fin 2000; NaN; NaN] /\ Fin hi ∈ [Fin 2000; NaN; NaN] /\
    lo <= 2000 /\ 2000 <= hi /\
    forall (i : nat) (a : Q),
      [Fin 2000; NaN; NaN] !! i = Some (Fin a) -> lo <= a /\ a <= hi.
Proof.
  apply (y_limits_fallback_unused 1 (1 # 10) 2000 2 [0 # 2; 2 # 2; 2]).
  vm_compute. reflexivity.
Defined.

(** * The analytical curve *)

Lemma analytical_solution_cases (np_exp : Q -> Q) (k C0 t_max : Q) :
  exists t C : list Q,
    generate_analytical_solution np_exp k C0 t_max = Ok (t, C).
Proof.
  destruct (linspace_ok 0 t_max 1000) as [t Ht]; [lia|].
  unfold generate_analytical_solution. rewrite Ht. eauto.
Qed.

(** X13.  The analytical solver never raises, whatever its arguments: it
    returns 1000 time points and 1000 values, the first time point is 0 and
    the last is exactly [t_max], each value is [C0 * exp(-k t_i)] at its
    time point, and the last value is the analytical final value
    [C0 * exp(-k * t_max)] that the accuracy analysis uses. *)
Theorem analytical_solution_shape (np_exp : Q -> Q) (k C0 t_max : Q) :
  exists (t C : list Q),
    generate_analytical_solution np_exp k C0 t_max = Ok (t, C) /\
    length t = 1000%nat /\ length C = 1000%nat /\
    (exists t0, t !! 0%nat = Some t0 /\ t0 == 0) /\
    last t = Some t_max /\
    last C = Some (C0 * np_exp (- k * t_max)) /\
    forall (i : nat) (ti : Q),
      t !! i = Some ti -> C !! i = Some (C0 * np_exp (- k * ti)).
Proof.
  destruct (linspace_ok 0 t_max 1000) as [t Ht]; [lia|].
  pose proof (linspace_length _ _ _ _ Ht) as Hlen.
  pose proof (linspace_last 0 t_max 1000 t ltac:(lia) Ht) as Hlast.
  change (Z.to_nat 1000) with 1000%nat in Hlen.
  change (Z.to_nat (1000 - 1)) with 999%nat in Hlast.
  exists t, ((fun ti => C0 * np_exp (- k * ti)) <$> t).
  split; [unfold generate_analytical_solution; now rewrite Ht|].
  split; [exact Hlen|]. split; [now rewrite length_fmap|].
  split.
  { destruct (linspace_lookup 0 t_max 1000 t 0%nat) as (t0 & H0 & E0);
      [lia|exact Ht|lia|].
    exists t0. split; [exact H0|]. rewrite E0. simpl. ring. }
  split; [rewrite last_lookup, Hlen; exact Hlast|].
  split.
  - rewrite last_lookup, length_fmap, Hlen, list_lookup_fmap.
    change (Nat.pred 1000) with 999%nat. now rewrite Hlast.
  - intros i ti Hi. now rewrite list_lookup_fmap, Hi.
Qed.

(** * One run of [main] *)

Lemma main_eq (np_exp : Q -> Q) (h : Q) (method : method_t) (show_both : bool)
    (t t' : list Q) (C_explicit C_implicit : list np_float)
    (ylim : np_float * np_float) (acc : accuracy_box) :
  generate_explicit_euler h (1 # 2) 4 10 = Ok (t, C_explicit) ->
  generate_implicit_euler h (1 # 2) 4 10 = Ok (t', C_implicit) ->
  y_limits 4 C_explicit = Ok ylim ->
  accuracy_analysis method C_explicit C_implicit
    (4 * np_exp (- (1 # 2) * 10)) = Ok acc ->
  main np_exp h method show_both
  = Ok {| out_curves := plotted_curves show_both method;
          out_ylim := ylim;
          out_accuracy := acc;
          out_stability := stability_analysis method h (2 / (1 # 2)) |}.
Proof.
  intros He Hi Hy Ha. unfold main. cbv zeta.
  change (critical_h (1 # 2)) with (Ok (2 / (1 # 2))). cbn [rbind].
  destruct (analytical_solution_cases np_exp (1 # 2) 4 10) as (ta & Ca & ->).
  cbn [rbind]. rewrite He, Hi. cbn [rbind snd]. rewrite Hy. cbn [rbind].
  rewrite Ha. reflexivity.
Qed.

Lemma cons_last_some {A : Type} (x : A) (l : list A) :
  exists y : A, last (x :: l) = Some y /\
                (x :: l) !! length l = Some y.
Proof.
  destruct (lookup_lt_is_Some_2 (x :: l) (length l)) as [y Hy];
    [simpl; lia|].
  exists y. split; [|exact Hy].
  rewrite last_lookup. simpl. exact Hy.
Qed.

(** X14.  For every step size of the slider range [0.1, 5], every method
    and either setting of the comparison box, [main] runs to the end
    without raising; the lower
    plot limit it sets is a number in [-10, 0] and the upper one a number
    in [4, 10], so the initial value 4 is always inside the window. *)
Theorem main_runs (np_exp : Q -> Q) (h : Q) (method : method_t)
    (show_both : bool) :
  1 # 10 <= h -> h <= 5 ->
  exists (out : main_output) (lo hi : Q),
    main np_exp h method show_both = Ok out /\
    out_curves out = plotted_curves show_both method /\
    out_stability out = stability_analysis method h 4 /\
    out_ylim out = (Fin lo, Fin hi) /\
    - (10) <= lo /\ lo <= 0 /\ 4 <= hi /\ hi <= 10.
Proof.
  intros Hlo Hhi.
  assert (Hh : 0 < h) by lra.
  destruct (steps_positive h 10 Hh ltac:(reflexivity)) as (Hnz & Hint & Hm).
  destruct (integrators_cases h (1 # 2) 4 10)
    as [(e & He & _)|(t & _ & He & Hi)].
  { destruct (generate_explicit_euler_eq h (1 # 2) 4 10 Hnz) as (t & _ & E);
      [lia|]. rewrite E in He. discriminate. }
  set (m := Z.to_nat (py_int (10 / h))) in *.
  destruct (cons_last_some (Fin 4) (explicit_tail h (1 # 2) 4 m))
    as (x & Hx & _).
  destruct (cons_last_some (Fin 4) (implicit_tail h (1 # 2) (Fin 4) m))
    as (y & Hy & _).
  destruct (y_limits_eq 4 (Fin 4 :: explicit_tail h (1 # 2) 4 m))
    as (u & v & Hyl & _).
  destruct (clamp_low u) as (lo & Elo & H1 & H2 & _).
  destruct (clamp_high 4 v) as (hi & Ehi & H3 & H4 & _).
  rewrite Elo, Ehi in Hyl.
  assert (Hacc : exists acc,
            accuracy_analysis method
              (Fin 4 :: explicit_tail h (1 # 2) 4 m)
              (Fin 4 :: implicit_tail h (1 # 2) (Fin 4) m)
              (4 * np_exp (- (1 # 2) * 10)) = Ok acc).
  { destruct method.
    - rewrite (accuracy_analysis_explicit _ _ x y _ Hx Hy). eauto.
    - rewrite (accuracy_analysis_implicit _ _ x y _ Hx Hy). eauto. }
  destruct Hacc as [acc Hacc].
  eexists _, lo, hi.
  split;
    [exact (main_eq np_exp h method show_both _ _ _ _ _ _ He Hi Hyl Hacc)|].
  cbn [out_curves out_stability out_ylim].
  split; [reflexivity|]. split; [reflexivity|]. split; [reflexivity|].
  repeat (split; [assumption|]).
  split; [apply H4; discriminate|exact H3].
Qed.

Lemma main_runs_witness :
  exists (out : main_output) (lo hi : Q),
    main (fun _ => 1 # 100) 5 ImplicitEuler true = Ok out /\
    out_curves out = [AnalyticalCurve; ExplicitCurve; ImplicitCurve] /\
    out_stability out = AlwaysStable /\
    out_ylim out = (Fin lo, Fin hi) /\
    - (10) <= lo /\ lo <= 0 /\ 4 <= hi /\ hi <= 10.
Proof.
  apply (main_runs (fun _ => 1 # 100) 5 ImplicitEuler true); discriminate.
Defined.

Lemma Qfloor_below (x : Q) (n : Z) : x < inject_Z n -> (Qfloor x < n)%Z.
Proof.
  intros H. rewrite Zlt_Qlt.
  eapply Qle_lt_trans; [apply Qfloor_le|exact H].
Qed.

(** With the constants of [main] no step size up to 5 reaches the
    threshold. *)
Lemma slider_tail_no_nan (h : Q) :
  0 < h -> h <= 5 ->
  forall i : nat,
    (Fin 4 :: explicit_tail h (1 # 2) 4 (Z.to_nat (py_int (10 / h)))) !! i
    <> Some NaN.
Proof.
  intros Hh H5.
  destruct (Qlt_le_dec 4 h) as [H4|H4].
  - destruct (steps_positive h 10 Hh ltac:(reflexivity)) as (_ & -> & Hm).
    assert (Hf : (Qfloor (10 / h) < 3)%Z).
    { apply Qfloor_below. apply Qlt_shift_div_r; [exact Hh|].
      change (inject_Z 3) with 3. lra. }
    intros i Hi.
    destruct (proj1 (explicit_nan_iff h (1 # 2) _ 4) (ex_intro _ i Hi))
      as (j & Hj & Hgt).
    assert (Hr1 : - (3 # 2) <= 1 - h * (1 # 2)) by lra.
    assert (Hr2 : 1 - h * (1 # 2) <= 0) by lra.
    revert Hgt. generalize dependent (1 - h * (1 # 2)). intros r Hr1 Hr2.
    assert (Hj' : j = 1%nat \/ j = 2%nat) by lia.
    destruct Hj' as [-> | ->].
    + change (r ^ Z.of_nat 1) with r. apply Qabs_case; intros; lra.
    + change (r ^ Z.of_nat 2) with (r * r). apply Qabs_case; intros; nra.
  - apply explicit_tail_stable; [|discriminate].
    apply Qabs_case; intros; lra.
Qed.

(** X15.  With the constants of [main] ([k = 0.5], [C0 = 4],
    [t_max = 10]) the safety cut-off never fires on the slider range: for
    every step size [0 < h <= 5] the explicit trajectory contains no NaN. *)
Theorem slider_no_divergence (h : Q) :
  0 < h -> h <= 5 ->
  exists (t : list Q) (C : list np_float),
    generate_explicit_euler h (1 # 2) 4 10 = Ok (t, C) /\
    forall i : nat, C !! i <> Some NaN.
Proof.
  intros Hh H5.
  destruct (steps_positive h 10 Hh ltac:(reflexivity)) as (Hnz & Hint & Hm).
  destruct (generate_explicit_euler_eq h (1 # 2) 4 10 Hnz) as (t & _ & E);
    [lia|].
  exists t. eexists. split; [exact E|].
  now apply slider_tail_no_nan.
Qed.

Lemma slider_no_divergence_witness :
  exists (t : list Q) (C : list np_float),
    generate_explicit_euler 5 (1 # 2) 4 10 = Ok (t, C) /\
    forall i : nat, C !! i <> Some NaN.
Proof.
  apply (slider_no_divergence 5); [reflexivity|discriminate].
Defined.

(** * Edge cases *)

Lemma py_int_small (q : Q) : - (1) < q -> q < 1 -> py_int q = 0%Z.
Proof.
  destruct q as [n d]. unfold py_int, Qlt. simpl. intros H1 H2.
  destruct (Z.le_gt_cases 0 n) as [Hn|Hn].
  - apply Z.quot_small. lia.
  - rewrite <- (Z.opp_involutive n), Z.quot_opp_l by lia.
    rewrite Z.quot_small by lia. reflexivity.
Qed.

(** X18.  A step longer than the horizon integrates nothing: when
    [-1 < t_max / h < 1] both integrators return the single time point 0
    and the single value [C0]. *)
Theorem step_longer_than_horizon (h k C0 t_max : Q) :
  ~ h == 0 -> - (1) < t_max / h -> t_max / h < 1 ->
  exists t0 : Q,
    t0 == 0 /\
    generate_explicit_euler h k C0 t_max = Ok ([t0], [Fin C0]) /\
    generate_implicit_euler h k C0 t_max = Ok ([t0], [Fin C0]).
Proof.
  intros Hnz H1 H2.
  pose proof (py_int_small _ H1 H2) as Hm.
  destruct (generate_explicit_euler_eq h k C0 t_max Hnz) as (t & Ht & E);
    [lia|].
  destruct (generate_implicit_euler_eq h k C0 t_max Hnz) as (t' & Ht' & E');
    [lia|].
  rewrite Ht in Ht'. injection Ht' as <-.
  rewrite Hm in Ht, E, E'.
  destruct (linspace_single 0 t_max t Ht) as (t0 & -> & H0).
  exists t0. split; [exact H0|]. split; [exact E|exact E'].
Qed.

Lemma step_longer_than_horizon_witness :
  exists t0 : Q,
    t0 == 0 /\
    generate_explicit_euler 20 (1 # 2) 4 10 = Ok ([t0], [Fin 4]) /\
    generate_implicit_euler 20 (1 # 2) 4 10 = Ok ([t0], [Fin 4]).
Proof.
  apply (step_longer_than_horizon 20 (1 # 2) 4 10);
    [discriminate|reflexivity|reflexivity].
Defined.

(** X19.  The accuracy analysis reads the last element of both arrays
    whatever the method: it returns a box exactly when neither array is
    empty, and raises an index fault otherwise. *)
Theorem accuracy_analysis_needs_both
    (method : method_t) (C_explicit C_implicit : list np_float)
    (analytical : Q) :
  ((exists b : accuracy_box,
      accuracy_analysis method C_explicit C_implicit analytical = Ok b) <->
   C_explicit <> [] /\ C_implicit <> []) /\
  (C_explicit = [] \/ C_implicit = [] ->
   accuracy_analysis method C_explicit C_implicit analytical
   = Raise IndexError).
Proof.
  destruct (last C_explicit) as [x|] eqn:Hx.
  - destruct (last C_implicit) as [y|] eqn:Hy.
    + assert (H1 : C_explicit <> []) by (intros ->; discriminate).
      assert (H2 : C_implicit <> []) by (intros ->; discriminate).
      split.
      * split; [auto|]. intros _. destruct method.
        -- rewrite (accuracy_analysis_explicit _ _ x y _ Hx Hy). eauto.
        -- rewrite (accuracy_analysis_implicit _ _ x y _ Hx Hy). eauto.
      * intros [H|H]; contradiction.
    + apply last_None in Hy. subst C_implicit.
      assert (E : accuracy_analysis method C_explicit [] analytical
                  = Raise IndexError).
      { unfold accuracy_analysis, getitem_last. rewrite Hx. reflexivity. }
      rewrite E. split; [|auto].
      split; [intros [b Hb]; discriminate|intros [_ H]; contradiction].
  - apply last_None in Hx. subst C_explicit.
    assert (E : accuracy_analysis method [] C_implicit analytical
                = Raise IndexError) by reflexivity.
    rewrite E. split; [|auto].
    split; [intros [b Hb]; discriminate|intros [H _]; contradiction].
Qed.


